(** * Panel de análisis de mercado inmobiliario: the data pipeline of
    [streamlit_app/app.py]

    The script loads three CSV tables, adds five derived columns to the
    listing table, narrows it by city and by neighbourhood, and hands the
    result to the views.  This development embeds that pipeline (lines 21-87
    of the script): the loader [load_data], the derived-metrics block
    [computeMetrics], the sidebar filter [filter_listings] and the script
    [app] that chains them, down to the call that opens the views; and, of
    the views, the tables they compute before charting: the Valencia test,
    the active listings, the listings per neighbourhood, the fifteen most
    listed neighbourhoods and the crime table without its totals.

    Numbers are IEEE binary64 values, as in pandas: [float] is Rocq's
    primitive float type, whose operations are the machine's.  The five
    formulas are written once, over an arbitrary arithmetic, so that they can
    also be read in exact rational arithmetic; so is the mean of a column.
    The order in which numpy adds the cells of a column is a parameter of
    the development: every property holds whatever that order is. *)

From Stdlib Require Import Floats ZArith QArith Sorted Permutation.
From stdpp Require Import gmap strings list.

Local Open Scope string_scope.

(** ** Arithmetic *)

Class Arith (N : Type) := {
  nmul : N → N → N;
  ndiv : N → N → N;
  nsub : N → N → N;
  nlit : Z → N                    (* an integer literal of the script *)
}.

Definition float_of_Z (z : Z) : float := PrimFloat.of_uint63 (Uint63.of_Z z).

#[export] Instance float_arith : Arith float :=
  {| nmul := PrimFloat.mul; ndiv := PrimFloat.div; nsub := PrimFloat.sub;
     nlit := float_of_Z |}.

#[export] Instance Q_arith : Arith Q :=
  {| nmul := Qmult; ndiv := Qdiv; nsub := Qminus; nlit := inject_Z |}.

(** ** The formulas of the derived-metrics block (lines 43-49) *)

Section Formulas.
Context {N : Type} `{Arith N}.

Definition average_m2 : N := nlit 70.
Definition gastos_anuales : N := nlit 3000.
Definition precio_fallback : N := nlit 2000.

(* df['price'] * df['days_rented'] *)
Definition annual_income (price days_rented : N) : N :=
  nmul price days_rented.

(* precio_m2_valencia * average_m2 *)
Definition estimated_property_value (precio_m2_valencia : N) : N :=
  nmul precio_m2_valencia average_m2.

(* (income / value) * 100, used for 'ROI (%)' and for 'Net ROI (%)' *)
Definition pct (income value : N) : N :=
  nmul (ndiv income value) (nlit 100).

(* df['annual_income'] - gastos_anuales *)
Definition net_annual_income (income : N) : N :=
  nsub income gastos_anuales.

Definition ROI (precio_m2 price days_rented : N) : N :=
  pct (annual_income price days_rented) (estimated_property_value precio_m2).

Definition Net_ROI (precio_m2 price days_rented : N) : N :=
  pct (net_annual_income (annual_income price days_rented))
      (estimated_property_value precio_m2).

(* what the claim subtracts from the gross figure: 3000 / value * 100 *)
Definition gastos_pct (precio_m2 : N) : N :=
  pct gastos_anuales (estimated_property_value precio_m2).
End Formulas.

(** ** Tables *)

(** A column as [pd.read_csv] types it: numeric (binary64, a missing cell is
    NaN; an integer column enters every operation of this script through
    binary64 arithmetic) or text (object dtype, a missing cell is [None]). *)
Inductive column :=
  | NumCol (xs : list float)
  | ObjCol (xs : list (option string)).

Definition col_len (c : column) : nat :=
  match c with NumCol xs => length xs | ObjCol xs => length xs end.

Record DataFrame := mkDF {
  index : list nat;                 (* row labels *)
  cols  : gmap string column
}.

Definition len (df : DataFrame) : nat := length (index df).

(** Every column has one cell per row. *)
Definition wf (df : DataFrame) : Prop :=
  map_Forall (λ _ c, col_len c = len df) (cols df).

(** ** Exceptions *)

Inductive exn :=
  | KeyError (k : string)
  | ValueError
  | TypeError
  | AttributeError.

Inductive result (A : Type) :=
  | Ok (a : A)
  | Err (e : exn).
Arguments Ok {A} a.
Arguments Err {A} e.

Definition rbind {A B} (r : result A) (f : A → result B) : result B :=
  match r with Ok a => f a | Err e => Err e end.

(** ** Column and frame operations *)

(* 'k' in df.columns *)
Definition has_column (k : string) (df : DataFrame) : bool :=
  bool_decide (is_Some (cols df !! k)).

(* df[k] *)
Definition getitem (df : DataFrame) (k : string) : result column :=
  match cols df !! k with
  | Some c => Ok c
  | None => Err (KeyError k)
  end.

(* df[k] = c *)
Definition setitem (df : DataFrame) (k : string) (c : column) : DataFrame :=
  mkDF (index df) (<[k := c]> (cols df)).

(* df[k] = scalar: the scalar is broadcast to every row *)
Definition broadcast (df : DataFrame) (v : float) : column :=
  NumCol (replicate (len df) v).

Definition all_missing (xs : list (option string)) : bool :=
  forallb (λ c, bool_decide (c = None)) xs.

(** The cells of a column as operands of float arithmetic.  A text column
    takes part only when it holds no string at all (its cells are then
    NaN); a string operand makes Python raise TypeError.  What is given is
    the values: a result with a text operand keeps object dtype in pandas
    (the columns computed from a file without a data row do), and is
    recorded here as a column of numbers. *)
Definition numeric (c : column) : result (list float) :=
  match c with
  | NumCol xs => Ok xs
  | ObjCol xs => if all_missing xs then Ok (map (λ _, nan) xs) else Err TypeError
  end.

Section Coercion.
(** Python's [float(s)] on a string, [None] where it raises ValueError. *)
Variable float_of_str : string → option float.

(* Series.astype(float) *)
Definition astype_float (c : column) : result column :=
  match c with
  | NumCol xs => Ok (NumCol xs)
  | ObjCol xs =>
      match mapM (λ c, match c with
                       | None => Some nan
                       | Some s => float_of_str s
                       end) xs with
      | Some ys => Ok (NumCol ys)
      | None => Err ValueError
      end
  end.
End Coercion.

Definition col_mul (a b : column) : result column :=
  rbind (numeric a) (λ xs, rbind (numeric b) (λ ys,
    Ok (NumCol (zip_with PrimFloat.mul xs ys)))).

Definition col_div (a b : column) : result column :=
  rbind (numeric a) (λ xs, rbind (numeric b) (λ ys,
    Ok (NumCol (zip_with PrimFloat.div xs ys)))).

Definition col_mul_scalar (a : column) (k : float) : result column :=
  rbind (numeric a) (λ xs, Ok (NumCol (map (λ x, PrimFloat.mul x k) xs))).

Definition col_sub_scalar (a : column) (k : float) : result column :=
  rbind (numeric a) (λ xs, Ok (NumCol (map (λ x, PrimFloat.sub x k) xs))).

Definition float_of_nat (n : nat) : float := float_of_Z (Z.of_nat n).

Definition dropna_num (xs : list float) : list float :=
  List.filter (λ x, negb (PrimFloat.is_nan x)) xs.

(** ** The mean of a column *)

(** The cells of an array and what [Series.mean] does with them: add,
    divide, count, test for a missing cell.  The script's cells are binary64
    values; the same computation is also read on exact rationals, where a
    missing cell is [None], to state what it is a computation of. *)
Class Cells (N : Type) := {
  cadd : N → N → N;
  cdiv : N → N → N;
  czero : bool → N;               (* 0.0, and -0.0 for [true] *)
  cof_nat : nat → N;
  cnan : N;
  cmissing : N → bool             (* isna *)
}.

#[export] Instance float_cells : Cells float :=
  {| cadd := PrimFloat.add; cdiv := PrimFloat.div;
     czero := λ negative, if negative then neg_zero else zero;
     cof_nat := float_of_nat; cnan := nan; cmissing := PrimFloat.is_nan |}.

#[export] Instance exact_cells : Cells (option Q) :=
  {| cadd := λ a b, match a, b with
                    | Some x, Some y => Some (x + y)%Q
                    | _, _ => None
                    end;
     cdiv := λ a b, match a, b with
                    | Some x, Some y => Some (x / y)%Q
                    | _, _ => None
                    end;
     czero := λ _, Some 0%Q;
     cof_nat := λ n, Some (inject_Z (Z.of_nat n));
     cnan := None;
     cmissing := λ a, match a with None => true | Some _ => false end |}.

(** numpy adds the cells of an array in an order of its own: one after the
    other for a short array, in eight interleaved partial sums for a longer
    one, by halves above 128 cells, in chunks when it converts the cells on
    the way.  In binary64 the order decides the last bits of the sum.  An
    order is a bracketing of the additions over the cell positions and the
    zeros an accumulator starts from. *)
Inductive sum_tree :=
  | Cell (i : nat)
  | Zero (negative : bool)
  | Plus (l r : sum_tree).

Fixpoint leaves (t : sum_tree) : list nat :=
  match t with
  | Cell i => [i]
  | Zero _ => []
  | Plus l r => leaves l ++ leaves r
  end.

(** The order in which [ndarray.sum] adds an array of [n] cells.  Which
    order that is belongs to numpy and to its version; what the script
    relies on is that every cell is added exactly once. *)
Class SumOrder := {
  sum_tree_of : nat → sum_tree;
  sum_tree_leaves : ∀ n, leaves (sum_tree_of n) ≡ₚ seq 0 n
}.

Fixpoint eval_sum {N} `{Cells N} (t : sum_tree) (xs : list N) : N :=
  match t with
  | Cell i => default (czero false) (xs !! i)
  | Zero negative => czero negative
  | Plus l r => cadd (eval_sum l xs) (eval_sum r xs)
  end.

Section Pairwise.
Local Open Scope nat_scope.

(* res += a[i], for the positions given, in turn *)
Definition add_cells (res : sum_tree) (positions : list nat) : sum_tree :=
  fold_left (λ t i, Plus t (Cell i)) positions res.

(* r[j], over the groups of eight cells from position off *)
Definition accumulator (off groups j : nat) : sum_tree :=
  add_cells (Cell (off + j)) (map (λ g, off + 8 * g + j) (seq 1 (groups - 1))).

(* the unrolled loop for 8 <= n <= 128 *)
Definition unrolled (off n : nat) : sum_tree :=
  let r := accumulator off (n / 8) in
  let res := Plus (Plus (Plus (r 0) (r 1)) (Plus (r 2) (r 3)))
                  (Plus (Plus (r 4) (r 5)) (Plus (r 6) (r 7))) in
  add_cells res (seq (off + 8 * (n / 8)) (n mod 8)).

(** numpy's [pairwise_sum], the loop behind [np.add.reduce] on floats, on
    the [n] cells from position [off]: fewer than eight cells are added in
    turn, from -0.0; up to 128 cells are added into eight accumulators, cell
    [i] into accumulator [i mod 8], the accumulators are then added two by
    two and the cells left over in turn; a longer array is cut in two, the
    first part a multiple of eight long, and the two sums are added.
    [fuel] bounds the depth of the cutting; [n] is enough. *)
Fixpoint pairwise_sum (fuel off n : nat) : sum_tree :=
  if n <? 8 then add_cells (Zero true) (seq off n)
  else if n <=? 128 then unrolled off n
  else match fuel with
       | O => add_cells (Zero true) (seq off n)
       | S fuel =>
           let n2 := n / 2 - (n / 2) mod 8 in
           Plus (pairwise_sum fuel off n2) (pairwise_sum fuel (off + n2) (n - n2))
       end.

(* the reduction adds the pairwise sum of the array to its identity, 0.0 *)
Definition numpy_tree (n : nat) : sum_tree :=
  Plus (Zero false) (pairwise_sum n 0 n).
End Pairwise.

Section Mean.
Context {N : Type} `{Cells N} {order : SumOrder}.

(* values.sum() *)
Definition np_sum (xs : list N) : N :=
  eval_sum (sum_tree_of (length xs)) xs.

(** [Series.mean()] with pandas' default [skipna=True] ([nanops.nanmean]):
    the missing cells are counted out and replaced by 0, the array is
    summed, and the sum is divided by the count of the cells that were not
    missing; with no such cell the mean is NaN. *)
Definition mean_skipna (xs : list N) : N :=
  let count := length (List.filter (λ x, negb (cmissing x)) xs) in
  let values := map (λ x, if cmissing x then czero false else x) xs in
  let the_sum := np_sum values in
  if (0 <? count)%nat then cdiv the_sum (cof_nat count) else cnan.
End Mean.

Section ColumnMean.
Context {order : SumOrder}.

Definition col_mean (c : column) : result float :=
  rbind (numeric c) (λ xs, Ok (mean_skipna xs)).
End ColumnMean.

#[export] Instance result_ret : MRet result := @Ok.
#[export] Instance result_bind : MBind result := λ A B f r, rbind r f.

(** ** The derived-metrics block (lines 37-49) *)

Local Open Scope float_scope.

Section Metrics.
Context {order : SumOrder}.
Variable float_of_str : string → option float.

(** Lines 39-42.  The fallback literal [2000] is a Python integer; it only
    ever meets floats, in the product with [average_m2] and in the division
    of a float column by it, where it acts as the float [2000.0]. *)
Definition precio_m2_valencia (df_inmobiliario : DataFrame) : result float :=
  if has_column "precio" df_inmobiliario then
    c ← getitem df_inmobiliario "precio"; col_mean c
  else Ok precio_fallback.

Definition computeMetrics (df df_inmobiliario : DataFrame) : result DataFrame :=
  df ← (if has_column "price" df then
          c ← getitem df "price";
          c ← astype_float float_of_str c;
          Ok (setitem df "price" c)
        else Ok df);
  precio ← precio_m2_valencia df_inmobiliario;
  price ← getitem df "price";
  days ← getitem df "days_rented";
  c ← col_mul price days;
  let df := setitem df "annual_income" c in
  let df := setitem df "estimated_property_value"
              (broadcast df (precio * average_m2)) in
  income ← getitem df "annual_income";
  value ← getitem df "estimated_property_value";
  q ← col_div income value;
  c ← col_mul_scalar q 100;
  let df := setitem df "ROI (%)" c in
  income ← getitem df "annual_income";
  c ← col_sub_scalar income gastos_anuales;
  let df := setitem df "net_annual_income" c in
  net ← getitem df "net_annual_income";
  value ← getitem df "estimated_property_value";
  q ← col_div net value;
  c ← col_mul_scalar q 100;
  Ok (setitem df "Net ROI (%)" c).
End Metrics.

(** The numeric cell of column [k] in row position [i]. *)
Definition cell_num (df : DataFrame) (k : string) (i : nat) : option float :=
  match cols df !! k with
  | Some (NumCol xs) => xs !! i
  | _ => None
  end.

(** ** Selecting rows *)

(* xs[mask]: the cells whose mask bit is set, in order *)
Fixpoint mask_filter {A} (mask : list bool) (xs : list A) : list A :=
  match mask, xs with
  | b :: mask, x :: xs =>
      if b then x :: mask_filter mask xs else mask_filter mask xs
  | _, _ => []
  end.

Definition col_select (mask : list bool) (c : column) : column :=
  match c with
  | NumCol xs => NumCol (mask_filter mask xs)
  | ObjCol xs => ObjCol (mask_filter mask xs)
  end.

(* df[mask] *)
Definition select_rows (mask : list bool) (df : DataFrame) : DataFrame :=
  mkDF (mask_filter mask (index df)) (col_select mask <$> cols df).

(* df.empty: some axis has length 0 *)
Definition empty (df : DataFrame) : bool :=
  bool_decide (len df = 0%nat) || bool_decide (size (cols df) = 0%nat).

(** ** Text columns *)

Definition lower_char (c : Ascii.ascii) : Ascii.ascii :=
  let n := Ascii.N_of_ascii c in
  if ((65 <=? n) && (n <=? 90))%N then Ascii.ascii_of_N (n + 32) else c.

(** [str.lower()].  Letters A-Z are mapped, every other byte is kept.  On
    text outside ASCII Python also maps capital letters, to letters outside
    ASCII again (with the one exception of U+212A, mapped to k); the names
    this script compares with are ASCII and hold no k. *)
Fixpoint lower (s : string) : string :=
  match s with
  | EmptyString => EmptyString
  | String c s => String (lower_char c) (lower s)
  end.

(* Series.str.lower() *)
Definition str_lower (c : column) : result (list (option string)) :=
  match c with
  | ObjCol xs => Ok (map (option_map lower) xs)
  | NumCol _ => Err AttributeError
  end.

(* series == v, for a string v: a missing cell compares unequal *)
Definition eq_scalar (xs : list (option string)) (v : string) : list bool :=
  map (λ c, match c with
            | Some s => bool_decide (s = v)
            | None => false
            end) xs.

(** ** The neighbourhood universe *)

(** A neighbourhood name as the widgets carry it: the cell of a text column
    or of a numeric one. *)
Inductive label :=
  | LNum (x : float)
  | LStr (s : string).

(* Series.dropna() on a text column *)
Definition dropna_str (xs : list (option string)) : list string := omap id xs.

(* Series.unique(): first occurrences, in order of appearance *)
Fixpoint unique_from {A} (eqb : A → A → bool) (seen xs : list A) : list A :=
  match xs with
  | [] => []
  | x :: xs =>
      if existsb (eqb x) seen then unique_from eqb seen xs
      else x :: unique_from eqb (x :: seen) xs
  end.

Definition unique {A} (eqb : A → A → bool) (xs : list A) : list A :=
  unique_from eqb [] xs.

Fixpoint insert_by {A} (leb : A → A → bool) (x : A) (l : list A) : list A :=
  match l with
  | [] => [x]
  | y :: l' => if leb x y then x :: l else y :: insert_by leb x l'
  end.

(** [sorted(...)]: the values it is applied to are pairwise different and
    totally ordered, so the sorted list does not depend on the algorithm. *)
Definition sorted_by {A} (leb : A → A → bool) (l : list A) : list A :=
  foldr (insert_by leb) [] l.

(* sorted(series.dropna().unique()) *)
Definition barrios_of (c : column) : list label :=
  match c with
  | ObjCol xs => LStr <$> sorted_by String.leb (unique String.eqb (dropna_str xs))
  | NumCol xs => LNum <$> sorted_by PrimFloat.leb (unique PrimFloat.eqb (dropna_num xs))
  end.

Definition label_is_nan (k : label) : bool :=
  match k with LNum y => PrimFloat.is_nan y | LStr _ => false end.

Definition isin_str (values : list label) (c : option string) : bool :=
  match c with
  | Some s => existsb (λ k, match k with
                            | LStr t => String.eqb s t
                            | LNum _ => false
                            end) values
  | None => existsb label_is_nan values
  end.

Definition isin_num (values : list label) (x : float) : bool :=
  existsb (λ k, match k with
                | LNum y => PrimFloat.eqb x y || (PrimFloat.is_nan x && PrimFloat.is_nan y)
                | LStr _ => false
                end) values.

(** One cell of a column. *)
Inductive cell :=
  | CNum (x : float)
  | CStr (s : option string).

Definition cells (c : column) : list cell :=
  match c with
  | NumCol xs => map CNum xs
  | ObjCol xs => map CStr xs
  end.

(* pd.isna(cell) *)
Definition isna (v : cell) : bool :=
  match v with
  | CNum x => PrimFloat.is_nan x
  | CStr None => true
  | CStr (Some _) => false
  end.

Definition isin_cell (values : list label) (v : cell) : bool :=
  match v with
  | CNum x => isin_num values x
  | CStr s => isin_str values s
  end.

(* series.isin(values): a missing cell is in [values] only if a NaN is *)
Definition isin (c : column) (values : list label) : list bool :=
  map (isin_cell values) (cells c).

(** ** The script: Streamlit calls and control flow *)

Inductive event :=
  | st_error (body : string)
  | st_text (body : string)
  | st_warning (body : string)
  | st_sidebar_header (body : string)
  | st_sidebar_warning (body : string)
  | st_sidebar_selectbox (lbl : string) (options : list string)
  | st_sidebar_multiselect (lbl : string) (options default : list label)
  | st_tabs (names : list string).

Inductive outcome (A : Type) :=
  | Done (a : A)
  | Stopped                       (* st.stop() *)
  | Raised (e : exn).             (* an uncaught exception *)
Arguments Done {A} a.
Arguments Stopped {A}.
Arguments Raised {A} e.

(** A run of a piece of the script: the Streamlit calls it made, in order,
    and how it ended. *)
Record script (A : Type) := Script {
  calls : list event;
  ending : outcome A
}.
Arguments Script {A} calls ending.
Arguments calls {A} s.
Arguments ending {A} s.

#[export] Instance script_ret : MRet script := λ A a, Script [] (Done a).
#[export] Instance script_bind : MBind script := λ A B f m,
  match ending m with
  | Done a => Script (calls m ++ calls (f a)) (ending (f a))
  | Stopped => Script (calls m) Stopped
  | Raised e => Script (calls m) (Raised e)
  end.

Definition emit (e : event) : script unit := Script [e] (Done tt).
Definition stop {A} : script A := Script [] Stopped.
Definition lift {A} (r : result A) : script A :=
  match r with
  | Ok a => Script [] (Done a)
  | Err e => Script [] (Raised e)
  end.

(** ** The sidebar filter (lines 51-75) *)

Inductive ciudad := Valencia | Malaga | Madrid | Barcelona.

Definition ciudad_name (c : ciudad) : string :=
  match c with
  | Valencia => "Valencia"
  | Malaga => "Malaga"
  | Madrid => "Madrid"
  | Barcelona => "Barcelona"
  end.

Definition ciudades : list string := ciudad_name <$> [Valencia; Malaga; Madrid; Barcelona].

(** What the user has set in the two sidebar widgets: one of the four
    cities, and the neighbourhoods picked ([None]: the widget is untouched
    and returns its default). *)
Record user := User {
  pick_ciudad : ciudad;
  pick_barrios : option (list label)
}.

(** What a widget returns: the user's pick, or its default. *)
Definition widget_value {A} (pick : option A) (default : A) : A :=
  match pick with
  | Some chosen => chosen
  | None => default
  end.

(* st.sidebar.selectbox(lbl, options) *)
Definition selectbox (lbl : string) (options : list string) (pick : ciudad) : script string :=
  emit (st_sidebar_selectbox lbl options);; mret (ciudad_name pick).

(* st.sidebar.multiselect(lbl, options=options, default=default) *)
Definition multiselect (lbl : string) (options default : list label)
    (pick : option (list label)) : script (list label) :=
  emit (st_sidebar_multiselect lbl options default);;
  mret (widget_value pick default).

(* line 57: df[df['city'].str.lower() == ciudad_seleccionada.lower()] *)
Definition narrow_city (ciudad_seleccionada : string) (df : DataFrame) : result DataFrame :=
  city ← getitem df "city";
  low ← str_lower city;
  Ok (select_rows (eq_scalar low (lower ciudad_seleccionada)) df).

(** The test line 57 applies to one cell of the city column, for the
    lower-cased selection [v]. *)
Definition city_test (v : string) (c : option string) : bool :=
  match option_map lower c with
  | Some s => bool_decide (s = v)
  | None => false
  end.

(* lines 61-63 and 70-72: the neighbourhood widget and the rows it keeps *)
Definition narrow_barrios (pick : option (list label)) (df : DataFrame) : script DataFrame :=
  nb ← lift (getitem df "neighbourhood");
  let barrios := barrios_of nb in
  selected_barrios ← multiselect "Selecciona barrios" barrios barrios pick;
  nb ← lift (getitem df "neighbourhood");
  mret (select_rows (isin nb selected_barrios) df).

Definition sin_ciudad : string := "No hay datos para la ciudad seleccionada.".
Definition sin_barrios_ciudad : string :=
  "No hay datos para los barrios seleccionados en la ciudad.".
Definition sin_barrios : string := "No hay datos para los barrios seleccionados.".
Definition sin_columna_city : string :=
  "No se encontró la columna 'city' en los datos. Mostrando todos los datos.".
Definition sin_datos : string := "No hay datos disponibles.".

Definition filter_listings (u : user) (df : DataFrame) : script DataFrame :=
  emit (st_sidebar_header "Filtros");;
  if has_column "city" df then
    ciudad_seleccionada ← selectbox "Selecciona ciudad" ciudades (pick_ciudad u);
    df_ciudad ← lift (narrow_city ciudad_seleccionada df);
    if empty df_ciudad then
      emit (st_warning sin_ciudad);; stop
    else
      df_ciudad ← narrow_barrios (pick_barrios u) df_ciudad;
      if empty df_ciudad then
        emit (st_warning sin_barrios_ciudad);; stop
      else mret df_ciudad
  else
    emit (st_sidebar_warning sin_columna_city);;
    df ← narrow_barrios (pick_barrios u) df;
    if empty df then
      emit (st_warning sin_barrios);; stop
    else mret df.

(** The calls every run of the filter starts with when there is a city
    column, and the call that shows the neighbourhood widget. *)
Definition widgets_city : list event :=
  [st_sidebar_header "Filtros"; st_sidebar_selectbox "Selecciona ciudad" ciudades].

Definition widgets_sin_city : list event :=
  [st_sidebar_header "Filtros"; st_sidebar_warning sin_columna_city].

Definition barrios_widget (nb : column) : event :=
  st_sidebar_multiselect "Selecciona barrios" (barrios_of nb) (barrios_of nb).

(** ** The loader (lines 21-33) *)

(** A raised Python exception: [str(e)] and the text that
    [traceback.format_exc()] gives for it. *)
Record py_exception := PyExc {
  exc_str : string;
  exc_traceback : string
}.

(** The body of a [try]: a value, or the exception that left it. *)
Inductive attempt (A : Type) :=
  | Returns (a : A)
  | Raises (e : py_exception).
Arguments Returns {A} a.
Arguments Raises {A} e.

#[export] Instance attempt_ret : MRet attempt := @Returns.
#[export] Instance attempt_bind : MBind attempt := λ A B f m,
  match m with Returns a => f a | Raises e => Raises e end.

(** The file system as [pd.read_csv(path, sep=sep)] sees it: the table
    read, or the exception raised. *)
Definition storage : Type := string → string → attempt DataFrame.

Definition read_csv (fs : storage) (path sep : string) : attempt DataFrame :=
  fs path sep.

Definition tables : Type := option DataFrame * option DataFrame * option DataFrame.

(** The body of [load_data].  The [st.cache_data(ttl=3600)] decorator stores
    a run of this body, its calls to Streamlit and its result, and replays
    it for an hour without reading the files again: [fs] is what the files
    held when the run that is replayed was made. *)
Definition load_data (fs : storage) : script tables :=
  match
    df ← read_csv fs "data/Valencia_limpio.csv" ",";
    df_inmobiliario ← read_csv fs "data/valencia_vivienda_limpio.csv" ",";
    df_delincuencia ← read_csv fs "data/crimenValencia.csv" ";";
    mret (df, df_inmobiliario, df_delincuencia)
  with
  | Returns (df, df_inmobiliario, df_delincuencia) =>
      mret (Some df, Some df_inmobiliario, Some df_delincuencia)
  | Raises e =>
      emit (st_error ("Error al cargar los datos: " +:+ exc_str e));;
      emit (st_text (exc_traceback e));;
      mret (None, None, None)
  end.

(** ** The script, down to the first view (lines 33-87) *)

Definition main_tabs : list string :=
  ["📊 Resumen General"; "🏠 Precios de Vivienda"; "💸 Rentabilidad por Barrio";
   "📈 Competencia y Demanda"; "🔍 Análisis Avanzado"; "📝 Conclusiones"].

Section App.
Context {order : SumOrder}.
Variable float_of_str : string → option float.
Variable fs : storage.
Variable u : user.

(** The run ends [Done df] where the views start: [df] is the table they
    and the CSV export read. *)
Definition app : script DataFrame :=
  '(df, df_inmobiliario, df_delincuencia) ← load_data fs;
  match df, df_inmobiliario with
  | Some df, Some df_inmobiliario =>
      df ← lift (computeMetrics float_of_str df df_inmobiliario);
      df ← filter_listings u df;
      emit (st_tabs main_tabs);;
      mret df
  | _, _ =>
      emit (st_warning sin_datos);; stop
  end.
End App.

(** ** What the views compute from the tables (lines 89-547) *)

#[export] Instance ciudad_eq_dec : EqDecision ciudad.
Proof. solve_decision. Defined.

(** An expression of a view: its value, or the exception it raises. *)
Inductive py_error :=
  | PandasError (e : exn)
  | IndexError.

Inductive evaluated (A : Type) :=
  | Value (a : A)
  | Fails (e : py_error).
Arguments Value {A} a.
Arguments Fails {A} e.

(* Series.nunique(): the number of different values, NaN apart *)
Definition nunique_str (xs : list (option string)) : nat :=
  length (unique String.eqb (dropna_str xs)).

(* df['city'].str.lower() *)
Definition city_lower (df : DataFrame) : result (list (option string)) :=
  city ← getitem df "city"; str_lower city.

(** The test of line 217, which sends the table to the scatter plot of all
    listings (for Valencia) or to the one of neighbourhood means. *)
Definition es_valencia (df : DataFrame) : evaluated bool :=
  if has_column "city" df then
    match city_lower df with
    | Err e => Fails (PandasError e)
    | Ok low =>
        if Nat.eqb (nunique_str low) 1 then
          match city_lower df with
          | Err e => Fails (PandasError e)
          | Ok [] => Fails IndexError                      (* .iloc[0] *)
          | Ok (c :: _) => Value (bool_decide (c = Some "valencia"))
          end
        else Value false
    end
  else Value false.

(* series > k: NaN compares false; a string cell raises TypeError *)
Definition gt_scalar (c : column) (k : float) : result (list bool) :=
  xs ← numeric c; Ok (map (λ x, PrimFloat.ltb k x) xs).

(** Lines 190-191: the listings rented more than 30 days a year, or [None]
    when there is no days_rented column. *)
Definition activos (df : DataFrame) : result (option DataFrame) :=
  if has_column "days_rented" df then
    days ← getitem df "days_rented";
    mask ← gt_scalar days 30;
    Ok (Some (select_rows mask df))
  else Ok None.

(* series != v, for a string v: a missing cell and a number compare unequal *)
Definition ne_scalar (c : column) (v : string) : list bool :=
  match c with
  | ObjCol xs => map (λ c, match c with
                           | Some s => negb (String.eqb s v)
                           | None => true
                           end) xs
  | NumCol xs => map (λ _, true) xs
  end.

(* line 477: df_delincuencia[df_delincuencia['Parámetro'] != 'Total'] *)
Definition df_delincuencia_filtrado (df_delincuencia : DataFrame) : result DataFrame :=
  parametro ← getitem df_delincuencia "Parámetro";
  Ok (select_rows (ne_scalar parametro "Total") df_delincuencia).

(** [df.groupby(key)[col].count()]: for each value of column [key] that is
    not missing, in ascending order, the number of its rows whose cell in
    column [col] is present. *)
Definition groupby_count (df : DataFrame) (key col : string) : result (list (label * nat)) :=
  keys ← getitem df key;
  vals ← getitem df col;
  Ok (map (λ k, (k, length (List.filter
                              (λ kv, isin_cell [k] kv.1 && negb (isna kv.2))
                              (zip (cells keys) (cells vals)))))
          (barrios_of keys)).

(* line 174, before the columns are renamed: neighbourhood, n_anuncios *)
Definition competencia_por_barrio (df : DataFrame) : result (list (label * nat)) :=
  groupby_count df "neighbourhood" "id".

(** The different values of a column that are not missing, in order of
    first appearance, each with the number of cells that hold it. *)
Definition label_counts (c : column) : list (label * nat) :=
  match c with
  | ObjCol xs =>
      map (λ s, (LStr s, length (List.filter (String.eqb s) (dropna_str xs))))
          (unique String.eqb (dropna_str xs))
  | NumCol xs =>
      map (λ x, (LNum x, length (List.filter (PrimFloat.eqb x) (dropna_num xs))))
          (unique PrimFloat.eqb (dropna_num xs))
  end.

Section TopBarrios.
(** [Series.value_counts()] lists the counts in descending order; how it
    orders equal counts is left to pandas, so the ordering is a parameter. *)
Variable by_count : list (label * nat) → list (label * nat).

(* df['neighbourhood'].value_counts().head(15).index *)
Definition top_barrios (nb : column) : list label :=
  (take 15 (by_count (label_counts nb))).*1.

(** Lines 370-371, 411-412 and 451-452: the rows of the 15 neighbourhoods
    with most listings, which the box plots show. *)
Definition df_top (df : DataFrame) : result DataFrame :=
  nb ← getitem df "neighbourhood";
  let top_barrios := top_barrios nb in
  nb ← getitem df "neighbourhood";
  Ok (select_rows (isin nb top_barrios) df).
End TopBarrios.

(** Descending counts, equal counts in the order given. *)
Definition by_count_stable (l : list (label * nat)) : list (label * nat) :=
  sorted_by (λ a b, Nat.leb b.2 a.2) l.

(** One mask for two selections in a row: [later] is read against the cells
    that [first] lets through. *)
Fixpoint mask_and_then (first later : list bool) : list bool :=
  match first with
  | [] => []
  | false :: first => false :: mask_and_then first later
  | true :: first =>
      match later with
      | [] => []
      | b :: later => b :: mask_and_then first later
      end
  end.

(** The five columns the derived-metrics block adds. *)
Definition derived_columns : list string :=
  ["annual_income"; "estimated_property_value"; "ROI (%)"; "net_annual_income";
   "Net ROI (%)"].

(** ** Sample tables *)

Definition no_parse : string → option float := λ _, None.

(** One Valencia listing in Russafa. *)
Definition listing_russafa (price days_rented : float) : DataFrame :=
  mkDF [0%nat]
    (<["city" := ObjCol [Some "Valencia"]]>
     (<["neighbourhood" := ObjCol [Some "Russafa"]]>
      (<["price" := NumCol [price]]>
       (<["days_rented" := NumCol [days_rented]]> ∅)))).

(** That listing with its five derived columns, for a reference price. *)
Definition russafa_metrics (price days_rented precio_m2 : float) : DataFrame :=
  let income := price * days_rented in
  let value := precio_m2 * 70 in
  setitem (setitem (setitem (setitem (setitem
    (listing_russafa price days_rented)
    "annual_income" (NumCol [income]))
    "estimated_property_value" (NumCol [value]))
    "ROI (%)" (NumCol [income / value * 100]))
    "net_annual_income" (NumCol [income - 3000]))
    "Net ROI (%)" (NumCol [(income - 3000) / value * 100]).

(** The same listing in a table that has no price column. *)
Definition listing_sin_price : DataFrame :=
  mkDF [0%nat]
    (<["city" := ObjCol [Some "Valencia"]]>
     (<["neighbourhood" := ObjCol [Some "Russafa"]]>
      (<["days_rented" := NumCol [100]]> ∅))).

(** The same listing in a table that has no days_rented column. *)
Definition listing_sin_days : DataFrame :=
  mkDF [0%nat]
    (<["city" := ObjCol [Some "Valencia"]]>
     (<["neighbourhood" := ObjCol [Some "Russafa"]]>
      (<["price" := NumCol [50]]> ∅))).

(** The same listing with a price that is not a number. *)
Definition listing_price_texto : DataFrame :=
  mkDF [0%nat]
    (<["city" := ObjCol [Some "Valencia"]]>
     (<["neighbourhood" := ObjCol [Some "Russafa"]]>
      (<["price" := ObjCol [Some "50 €"]]>
       (<["days_rented" := NumCol [100]]> ∅)))).

(** A listing table without a neighbourhood column. *)
Definition listings_sin_barrio : DataFrame :=
  mkDF [0; 1]%nat
    (<["city" := ObjCol [Some "Valencia"; Some "Madrid"]]>
     (<["price" := NumCol [50; 120]]>
      (<["days_rented" := NumCol [100; 150]]> ∅))).

(** A listing table whose city column holds numbers. *)
Definition listings_city_num : DataFrame :=
  mkDF [0; 1]%nat
    (<["city" := NumCol [46; 28]]>
     (<["neighbourhood" := ObjCol [Some "Russafa"; Some "Salamanca"]]> ∅)).

(** Crime counts by year, with the yearly total among the categories. *)
Definition crimen_demo : DataFrame :=
  mkDF [0; 1; 2; 3]%nat
    (<["Parámetro" := ObjCol [Some "Hurtos"; Some "Total"; None; Some "Robos"]]>
     (<["Año" := NumCol [2022; 2022; 2022; 2023]]>
      (<["Denuncias" := NumCol [120; 300; 5; 80]]> ∅))).

(** Five listings: three in Valencia under different spellings, of which
    one has no neighbourhood, one in Madrid, and one without a city. *)
Definition demo_barrios : list (option string) :=
  [Some "Russafa"; None; Some "Salamanca"; Some "Benimaclet"; Some "Russafa"].

Definition listings_demo : DataFrame :=
  mkDF [0; 1; 2; 3; 4]%nat
    (<["city" := ObjCol [Some "Valencia"; Some "VALENCIA"; Some "Madrid";
                         Some "valencia"; None]]>
     (<["neighbourhood" := ObjCol demo_barrios]>
      (<["price" := NumCol [50; 80; 120; 40; 60]]>
       (<["days_rented" := NumCol [100; 200; 150; 90; 30]]> ∅)))).

(** The rows of [listings_demo] that the filter keeps for Valencia and all
    neighbourhoods. *)
Definition listings_demo_valencia : DataFrame :=
  mkDF [0; 3]%nat
    (<["city" := ObjCol [Some "Valencia"; Some "valencia"]]>
     (<["neighbourhood" := ObjCol [Some "Russafa"; Some "Benimaclet"]]>
      (<["price" := NumCol [50; 40]]>
       (<["days_rented" := NumCol [100; 90]]> ∅)))).

(** Four listings with their ids, in two neighbourhoods. *)
Definition listings_ids : DataFrame :=
  mkDF [0; 1; 2; 3]%nat
    (<["id" := NumCol [11; 12; 13; 14]]>
     (<["neighbourhood" := ObjCol [Some "Russafa"; Some "Benimaclet";
                                   Some "Russafa"; Some "Russafa"]]> ∅)).

(** The listing with its five derived columns, rows 0 and 3 of
    [listings_demo]: what the views receive from [storage_demo] for Valencia
    and all neighbourhoods. *)
Definition views_demo : DataFrame :=
  mkDF [0; 3]%nat
    (<["city" := ObjCol [Some "Valencia"; Some "valencia"]]>
     (<["neighbourhood" := ObjCol [Some "Russafa"; Some "Benimaclet"]]>
      (<["price" := NumCol [50; 40]]>
       (<["days_rented" := NumCol [100; 90]]>
        (<["annual_income" := NumCol [5000; 3600]]>
         (<["estimated_property_value" := NumCol [175000; 175000]]>
          (<["ROI (%)" := NumCol [5000 / 175000 * 100; 3600 / 175000 * 100]]>
           (<["net_annual_income" := NumCol [2000; 600]]>
            (<["Net ROI (%)" := NumCol [2000 / 175000 * 100;
                                        600 / 175000 * 100]]> ∅))))))))).

(** The five listings of [listings_demo] with their derived columns, for a
    reference price of 2500. *)
Definition listings_demo_metrics : DataFrame :=
  let income := [5000; 16000; 18000; 3600; 1800] in
  let value := replicate 5 175000 in
  let net := [2000; 13000; 15000; 600; -1200] in
  setitem (setitem (setitem (setitem (setitem listings_demo
    "annual_income" (NumCol income))
    "estimated_property_value" (NumCol value))
    "ROI (%)" (NumCol (map (λ x, x * 100) (zip_with PrimFloat.div income value))))
    "net_annual_income" (NumCol net))
    "Net ROI (%)" (NumCol (map (λ x, x * 100) (zip_with PrimFloat.div net value))).

(** A sale-price table with the given prices per m². *)
Definition vivienda (precios : list float) : DataFrame :=
  mkDF (seq 0 (length precios))
    (<["neighbourhood" := ObjCol (map (λ _, Some "Russafa") precios)]>
     (<["precio" := NumCol precios]> ∅)).


(** Files on which every read returns: the five listings, and one sale
    price for the two other tables. *)
Definition storage_demo : storage :=
  λ path sep,
    if String.eqb path "data/Valencia_limpio.csv" then Returns listings_demo
    else Returns (vivienda [2500]).

(** One order of addition: one cell after the other, starting from 0.0.  It
    is the order in which the sample tables, all of fewer than eight cells,
    are summed. *)
Fixpoint left_to_right_tree (n : nat) : sum_tree :=
  match n with
  | O => Zero false
  | S m => Plus (left_to_right_tree m) (Cell m)
  end.

Definition left_to_right : SumOrder.
Proof.
  refine {| sum_tree_of := left_to_right_tree |}.
  induction n as [|n IH]; [done|].
  simpl leaves. rewrite IH, seq_S. done.
Defined.

(** Files on which every read returns, the listing file without its price
    column. *)
Definition storage_sin_price : storage :=
  λ path sep,
    if String.eqb path "data/Valencia_limpio.csv" then Returns listing_sin_price
    else Returns (vivienda [2500]).

(** ** Statements *)

(** The columns the spec assumes the listing file to have at least. *)
Definition listings_schema : list string :=
  ["id"; "city"; "neighbourhood"; "price"; "days_rented"; "amenities";
   "bedrooms"; "bathrooms"; "number_of_reviews"; "latitude"; "longitude"].

(** A read failure as the spec lists them: a read that raises (a missing
    file, rows that cannot be parsed) or a schema mismatch, a listing file
    read as a table that lacks a column of its schema. *)
Definition read_failure (fs : storage) : Prop :=
  (∃ e, fs "data/Valencia_limpio.csv" "," = Raises e ∨
        fs "data/valencia_vivienda_limpio.csv" "," = Raises e ∨
        fs "data/crimenValencia.csv" ";" = Raises e)
  ∨ (∃ df k, fs "data/Valencia_limpio.csv" "," = Returns df ∧
             k ∈ listings_schema ∧ cols df !! k = None).

(** C8 as the claim states it: on any read failure, a schema mismatch
    included, the loader shows an error and a trace and returns the three
    tables unavailable. *)
Definition load_data_atomic_in_failure : Prop :=
  ∀ fs, read_failure fs →
    ∃ msg trace,
      load_data fs = Script [st_error msg; st_text trace] (Done (None, None, None)).


(** The identity of the claim, read on the table the block builds: in every
    row, the net figure is the gross figure minus 3000 / value * 100. *)
Definition net_roi_identity : Prop :=
  ∀ (order : SumOrder) float_of_str df inm df' i gross net value,
    computeMetrics float_of_str df inm = Ok df' →
    cell_num df' "ROI (%)" i = Some gross →
    cell_num df' "Net ROI (%)" i = Some net →
    cell_num df' "estimated_property_value" i = Some value →
    net = gross - 3000 / value * 100.




(** No cell of the column is missing. *)
Definition no_missing (c : column) : Prop :=
  Forall (λ v, isna v = false) (cells c).

(** The rows of a table as (row label, neighbourhood cell) pairs. *)
Definition labelled (df : DataFrame) (nb : column) : list (nat * cell) :=
  zip (index df) (cells nb).

(** The same letter, case apart: the same byte, or a capital letter A-Z and
    its small letter. *)
Definition same_letter (a b : Ascii.ascii) : bool :=
  let m := Ascii.N_of_ascii a in
  let n := Ascii.N_of_ascii b in
  ((m =? n) || ((65 <=? m) && (m <=? 90) && (n =? m + 32))
            || ((65 <=? n) && (n <=? 90) && (m =? n + 32)))%N.

(** The same text, case apart. *)
Fixpoint same_text (s t : string) : bool :=
  match s, t with
  | EmptyString, EmptyString => true
  | String a s, String b t => same_letter a b && same_text s t
  | _, _ => false
  end.

(** The city of a row is the selected one, case apart. *)
Definition same_city (sel : string) (c : option string) : bool :=
  match c with Some s => same_text s sel | None => false end.

(** The names among the labels kept. *)
Definition names_of (keep : list label) : list string :=
  omap (λ k, match k with LStr s => Some s | LNum _ => None end) keep.

(** The neighbourhood of a row is, letter for letter, one of the names kept. *)
Definition named_in (keep : list label) (n : option string) : bool :=
  match n with Some s => bool_decide (s ∈ names_of keep) | None => false end.

(** The cells of [xs] in the rows whose cell in [tested] passes [test], in
    the order of the rows. *)
Definition cells_where {A B} (test : B → bool) (tested : list B) (xs : list A) : list A :=
  (List.filter (λ xt, test xt.2) (zip xs tested)).*1.

Definition column_where {B} (test : B → bool) (tested : list B) (c : column) : column :=
  match c with
  | NumCol xs => NumCol (cells_where test tested xs)
  | ObjCol xs => ObjCol (cells_where test tested xs)
  end.

(** The rows of [df] whose cell in [tested] passes [test]: their labels, and
    their cells in every column. *)
Definition rows_where {B} (test : B → bool) (tested : list B) (df : DataFrame) : DataFrame :=
  mkDF (cells_where test tested (index df)) (column_where test tested <$> cols df).

(** [U] lists the names that occur in [ns], each once, in ascending order
    ([String.leb] compares byte by byte, as Python compares code points). *)
Definition universe_of (ns : list (option string)) (U : list label) : Prop :=
  ∃ names, U = LStr <$> names ∧
    StronglySorted (λ a b, String.leb a b = true) names ∧
    NoDup names ∧
    ∀ s, s ∈ names ↔ Some s ∈ ns.

(** * Properties *)

Ltac name_ne := done.

(* the column stored last under the name looked up *)
Ltac column_of H :=
  rewrite ?lookup_insert_eq in H; rewrite ?lookup_insert_ne in H by name_ne;
  rewrite ?lookup_insert_eq in H.

Ltac wf_sample :=
  unfold wf; simpl;
  repeat (apply map_Forall_insert_2; [reflexivity|]); apply map_Forall_empty.

(** ** numpy's order of addition *)

Section NumpyOrder.
Local Open Scope list_scope.
Local Open Scope nat_scope.

Lemma leaves_add_cells res ps : leaves (add_cells res ps) = leaves res ++ ps.
Proof.
  unfold add_cells. revert res.
  induction ps as [|i ps IH]; intros res; simpl; [by rewrite app_nil_r|].
  rewrite IH. simpl. by rewrite <- app_assoc.
Qed.

Lemma leaves_accumulator off m j :
  (0 < m)%nat →
  leaves (accumulator off m j) = map (λ g, off + 8 * g + j) (seq 0 m).
Proof.
  intros Hm. unfold accumulator. rewrite leaves_add_cells.
  destruct m as [|m]; [lia|]. simpl. rewrite Nat.sub_0_r.
  f_equal. lia.
Qed.

Lemma flat_map_app_perm {A B} (f g : A → list B) l :
  flat_map (λ x, f x ++ g x) l ≡ₚ flat_map f l ++ flat_map g l.
Proof.
  induction l as [|x l IH]; simpl; [done|]. rewrite IH.
  rewrite <- !(assoc_L (++)). f_equiv.
  rewrite !(assoc_L (++)). f_equiv. apply Permutation_app_comm.
Qed.

Lemma interleaved off m :
  flat_map (λ j, map (λ g, off + 8 * g + j) (seq 0 m)) (seq 0 8)
    ≡ₚ seq off (8 * m).
Proof.
  induction m as [|m IH].
  - by rewrite Nat.mul_0_r.
  - replace (8 * S m) with (8 * m + 8) by lia. rewrite seq_app.
    rewrite <- IH.
    rewrite (flat_map_ext _ (λ j, map (λ g, off + 8 * g + j) (seq 0 m)
                                     ++ [off + 8 * m + j])).
    2:{ intros j. by rewrite seq_S, map_app. }
    rewrite flat_map_app_perm. f_equiv.
    simpl.
    match goal with |- ?l ≡ₚ ?r => replace l with r; [done|] end.
    repeat (f_equal; try lia).
Qed.

Lemma leaves_unrolled off n : (8 ≤ n)%nat → leaves (unrolled off n) ≡ₚ seq off n.
Proof.
  intros Hn. unfold unrolled. cbv zeta. rewrite leaves_add_cells.
  assert (0 < n / 8)%nat as Hm
    by (pose proof (Nat.div_mod_eq n 8); pose proof (Nat.mod_upper_bound n 8); lia).
  simpl leaves. rewrite !(leaves_accumulator _ _ _ Hm).
  rewrite (Nat.div_mod_eq n 8) at 11.
  rewrite seq_app. f_equiv.
  rewrite <- interleaved. simpl flat_map.
  by rewrite <- !(assoc_L (++)), app_nil_r.
Qed.

Lemma pairwise_sum_eq fuel off n :
  pairwise_sum fuel off n =
    if n <? 8 then add_cells (Zero true) (seq off n)
    else if n <=? 128 then unrolled off n
    else match fuel with
         | O => add_cells (Zero true) (seq off n)
         | S fuel =>
             let n2 := n / 2 - (n / 2) mod 8 in
             Plus (pairwise_sum fuel off n2) (pairwise_sum fuel (off + n2) (n - n2))
         end.
Proof. by destruct fuel. Qed.

Lemma leaves_pairwise_sum fuel off n :
  leaves (pairwise_sum fuel off n) ≡ₚ seq off n.
Proof.
  revert off n. induction fuel as [|fuel IH]; intros off n;
    rewrite pairwise_sum_eq;
    destruct (Nat.ltb_spec n 8); try (by rewrite leaves_add_cells);
    destruct (Nat.leb_spec n 128); try (by apply leaves_unrolled);
    try (by rewrite leaves_add_cells).
  cbv zeta. cbn [leaves]. rewrite !IH.
  set (n2 := (n / 2 - (n / 2) mod 8)%nat).
  assert (n2 ≤ n)%nat
    by (unfold n2; pose proof (Nat.div_mod_eq n 2); lia).
  rewrite <- seq_app. by replace (n2 + (n - n2))%nat with n by lia.
Qed.

(** The recursion never runs out of fuel. *)
Lemma pairwise_sum_fuel fuel off n :
  (n ≤ fuel)%nat → pairwise_sum fuel off n = pairwise_sum n off n.
Proof.
  revert fuel off. induction (lt_wf n) as [n _ IH]. intros fuel off Hf.
  rewrite (pairwise_sum_eq fuel), (pairwise_sum_eq n).
  destruct (Nat.ltb_spec n 8); [done|].
  destruct (Nat.leb_spec n 128); [done|].
  destruct fuel as [|fuel], n as [|n']; try lia.
  cbv zeta. set (n := S n') in *.
  set (n2 := (n / 2 - (n / 2) mod 8)%nat).
  assert (0 < n2 < n)%nat.
  { unfold n2. pose proof (Nat.div_mod_eq n 2).
    pose proof (Nat.mod_upper_bound n 2).
    pose proof (Nat.mod_upper_bound (n / 2) 8). lia. }
  rewrite (IH n2), (IH (n - n2)%nat) by lia.
  symmetry. rewrite (IH n2), (IH (n - n2)%nat) by lia. done.
Qed.
End NumpyOrder.

(** numpy's order is an order: it adds every cell once. *)
Definition numpy_pairwise : SumOrder.
Proof.
  refine {| sum_tree_of := numpy_tree |}.
  intros n. unfold numpy_tree. simpl. apply leaves_pairwise_sum.
Defined.

Section Facts.
(** Whatever the order in which numpy adds. *)
Context {order : SumOrder}.

(** ** Frames and columns *)

Lemma has_column_true k df c : cols df !! k = Some c → has_column k df = true.
Proof. intros E. unfold has_column. rewrite E. by apply bool_decide_eq_true. Qed.

Lemma has_column_false k df : cols df !! k = None → has_column k df = false.
Proof.
  intros E. unfold has_column. rewrite E. apply bool_decide_eq_false.
  by intros [? ?].
Qed.

Lemma getitem_Some k df c : cols df !! k = Some c → getitem df k = Ok c.
Proof. intros E. unfold getitem. by rewrite E. Qed.

Lemma getitem_None k df : cols df !! k = None → getitem df k = Err (KeyError k).
Proof. intros E. unfold getitem. by rewrite E. Qed.

Lemma getitem_Ok k df c : getitem df k = Ok c → cols df !! k = Some c.
Proof. unfold getitem. destruct (cols df !! k); congruence. Qed.

Lemma getitem_setitem_eq df k c : getitem (setitem df k c) k = Ok c.
Proof. unfold getitem, setitem. simpl. by rewrite lookup_insert_eq. Qed.

Lemma getitem_setitem_ne df k k' c :
  k ≠ k' → getitem (setitem df k c) k' = getitem df k'.
Proof. intros ?. unfold getitem, setitem. simpl. by rewrite lookup_insert_ne. Qed.

Lemma dropna_num_elem xs x :
  x ∈ dropna_num xs ↔ x ∈ xs ∧ PrimFloat.is_nan x = false.
Proof.
  unfold dropna_num. rewrite !list_elem_of_In, List.filter_In.
  by rewrite negb_true_iff.
Qed.

(** ** The derived-metrics block *)

Section MetricsFacts.
Variable float_of_str : string → option float.

(** On numeric price and days columns the block builds exactly these five
    columns. *)
Lemma computeMetrics_numeric df inm ps ds p :
  cols df !! "price" = Some (NumCol ps) →
  cols df !! "days_rented" = Some (NumCol ds) →
  precio_m2_valencia inm = Ok p →
  let income := zip_with PrimFloat.mul ps ds in
  let value := replicate (len df) (estimated_property_value p) in
  let net := map (λ x, x - gastos_anuales) income in
  computeMetrics float_of_str df inm = Ok
    (setitem (setitem (setitem (setitem (setitem (setitem df
       "price" (NumCol ps))
       "annual_income" (NumCol income))
       "estimated_property_value" (NumCol value))
       "ROI (%)" (NumCol (map (λ x, x * 100) (zip_with PrimFloat.div income value))))
       "net_annual_income" (NumCol net))
       "Net ROI (%)" (NumCol (map (λ x, x * 100) (zip_with PrimFloat.div net value)))).
Proof.
  intros Hp Hd Hm income value net. unfold computeMetrics.
  rewrite (has_column_true _ _ _ Hp), (getitem_Some _ _ _ Hp). cbn.
  rewrite Hm. cbn.
  rewrite getitem_setitem_eq. cbn.
  rewrite getitem_setitem_ne by name_ne. rewrite (getitem_Some _ _ _ Hd). cbn.
  repeat first [ rewrite getitem_setitem_eq
               | rewrite getitem_setitem_ne by name_ne
               | progress cbn ].
  reflexivity.
Qed.

Lemma lookup_map {A B} (f : A → B) (l : list A) i :
  map f l !! i = f <$> l !! i.
Proof.
  revert i. induction l as [|x l IH]; intros [|i]; simpl; auto.
Qed.

(** Row by row, the five columns hold the five formulas, evaluated in
    binary64 on the price and the days of the row and on the reference
    price. *)
Lemma computeMetrics_row df inm ps ds p i price days :
  cols df !! "price" = Some (NumCol ps) →
  cols df !! "days_rented" = Some (NumCol ds) →
  precio_m2_valencia inm = Ok p →
  (i < len df)%nat → ps !! i = Some price → ds !! i = Some days →
  ∃ df', computeMetrics float_of_str df inm = Ok df' ∧
    cell_num df' "annual_income" i = Some (annual_income price days) ∧
    cell_num df' "estimated_property_value" i
      = Some (estimated_property_value p) ∧
    cell_num df' "ROI (%)" i = Some (ROI p price days) ∧
    cell_num df' "net_annual_income" i
      = Some (net_annual_income (annual_income price days)) ∧
    cell_num df' "Net ROI (%)" i = Some (Net_ROI p price days).
Proof.
  intros Hps Hds Hp Hi Hx Hd. eexists.
  split; [exact (computeMetrics_numeric _ _ _ _ _ Hps Hds Hp)|].
  unfold cell_num, setitem. simpl.
  repeat split;
    rewrite ?lookup_insert_eq; rewrite ?lookup_insert_ne by name_ne;
    rewrite ?lookup_insert_eq;
    rewrite ?lookup_map, ?lookup_zip_with, ?lookup_map, ?lookup_zip_with, ?Hx, ?Hd;
    simpl; rewrite ?lookup_replicate_2 by done; reflexivity.
Qed.

Lemma bind_Ok_inv {A B} (r : result A) (f : A → result B) b :
  r ≫= f = Ok b → ∃ a, r = Ok a ∧ f a = Ok b.
Proof. destruct r as [a|e]; [by exists a | discriminate]. Qed.

(** Whenever the block succeeds, the value column is the broadcast of one
    scalar, the reference price times 70, and no row came or went. *)
Lemma computeMetrics_Ok_inv df inm df' :
  computeMetrics float_of_str df inm = Ok df' →
  index df' = index df ∧
  ∃ p, precio_m2_valencia inm = Ok p ∧
       cols df' !! "estimated_property_value"
         = Some (NumCol (replicate (len df) (estimated_property_value p))).
Proof.
  unfold computeMetrics. intros H.
  apply bind_Ok_inv in H as (df1 & H1 & H).
  assert (index df1 = index df) as Hi.
  { destruct (has_column "price" df); [|congruence].
    apply bind_Ok_inv in H1 as (c & _ & H1).
    apply bind_Ok_inv in H1 as (c' & _ & H1).
    injection H1 as <-. reflexivity. }
  apply bind_Ok_inv in H as (p & Hp & H).
  apply bind_Ok_inv in H as (price & _ & H).
  apply bind_Ok_inv in H as (days & _ & H).
  apply bind_Ok_inv in H as (c & _ & H).
  cbv zeta in H.
  repeat (apply bind_Ok_inv in H as (? & _ & H)).
  injection H as <-. split; [exact Hi|].
  exists p. split; [exact Hp|].
  unfold setitem; simpl. rewrite !lookup_insert_ne by name_ne.
  rewrite lookup_insert_eq. unfold broadcast, len. simpl. by rewrite Hi.
Qed.
End MetricsFacts.

Lemma astype_float_Ok float_of_str c c' :
  astype_float float_of_str c = Ok c' →
  ∃ ps, c' = NumCol ps ∧ length ps = col_len c.
Proof.
  destruct c as [xs|xs]; simpl.
  - intros [= <-]. by exists xs.
  - destruct (mapM _ xs) as [ys|] eqn:E; [|done]. intros [= <-].
    exists ys. split; [done|]. symmetry. by apply (length_mapM _ _ _ E).
Qed.

Lemma numeric_length c xs : numeric c = Ok xs → length xs = col_len c.
Proof.
  destruct c as [ys|ys]; simpl; [by intros [= <-]|].
  destruct (all_missing ys); [|done]. intros [= <-]. apply length_map.
Qed.

(** The shape of every successful run of the block: the price column
    coerced to numbers, the days read as numbers, and the five columns built
    from them. *)
Lemma computeMetrics_Ok_shape float_of_str df inm df' :
  computeMetrics float_of_str df inm = Ok df' →
  ∃ p c ps d ds,
    precio_m2_valencia inm = Ok p ∧
    cols df !! "price" = Some c ∧ astype_float float_of_str c = Ok (NumCol ps) ∧
    cols df !! "days_rented" = Some d ∧ numeric d = Ok ds ∧
    let income := zip_with PrimFloat.mul ps ds in
    let value := replicate (len df) (estimated_property_value p) in
    let net := map (λ x, x - gastos_anuales) income in
    df' = setitem (setitem (setitem (setitem (setitem (setitem df
         "price" (NumCol ps))
         "annual_income" (NumCol income))
         "estimated_property_value" (NumCol value))
         "ROI (%)" (NumCol (map (λ x, x * 100) (zip_with PrimFloat.div income value))))
         "net_annual_income" (NumCol net))
         "Net ROI (%)" (NumCol (map (λ x, x * 100) (zip_with PrimFloat.div net value))).
Proof.
  unfold computeMetrics.
  destruct (cols df !! "price") as [c|] eqn:Hc.
  2:{ rewrite (has_column_false _ _ Hc). cbn.
      destruct (precio_m2_valencia inm); cbn; [|done].
      by rewrite (getitem_None _ _ Hc). }
  rewrite (has_column_true _ _ _ Hc), (getitem_Some _ _ _ Hc). cbn.
  destruct (astype_float float_of_str c) as [c'|e] eqn:Ha; cbn; [|done].
  destruct (astype_float_Ok _ _ _ Ha) as (ps & -> & _).
  destruct (precio_m2_valencia inm) as [p|e] eqn:Hp; cbn; [|done].
  rewrite getitem_setitem_eq. cbn.
  rewrite getitem_setitem_ne by name_ne.
  destruct (cols df !! "days_rented") as [d|] eqn:Hd;
    [rewrite (getitem_Some _ _ _ Hd) | by rewrite (getitem_None _ _ Hd)].
  cbn. destruct (numeric d) as [ds|e] eqn:Hn; cbn; [|done].
  repeat first [ rewrite getitem_setitem_eq
               | rewrite getitem_setitem_ne by name_ne
               | progress cbn ].
  intros [= <-]. by exists p, c, ps, d, ds.
Qed.

Lemma precio_m2_valencia_numeric inm xs :
  cols inm !! "precio" = Some (NumCol xs) →
  precio_m2_valencia inm = Ok (mean_skipna xs).
Proof.
  intros E. unfold precio_m2_valencia.
  by rewrite (has_column_true _ _ _ E), (getitem_Some _ _ _ E).
Qed.


Lemma float_neq (x y : float) : Prim2SF x ≠ Prim2SF y → x ≠ y.
Proof. intros H ->. by apply H. Qed.

(** ** The net ROI identity (C1) *)

Lemma lookup_map_Some {A B} (f : A → B) (l : list A) i y :
  map f l !! i = Some y → ∃ x, l !! i = Some x ∧ y = f x.
Proof.
  rewrite lookup_map. destruct (l !! i) as [x|]; [|done].
  intros [= <-]. by exists x.
Qed.

(** C1 (amended): in every row of the table the block returns, the gross
    ROI cell is the binary64 value of annual_income / value * 100 and the
    net ROI cell is the binary64 value of (annual_income - 3000) / value *
    100, on the annual income and the estimated value of that row.  Read in
    exact rational arithmetic, on any income and any value other than zero,
    the second formula is the first minus 3000 / value * 100; between the
    binary64 cells that equation can fail. *)
Theorem net_roi_cells float_of_str df inm df' i gross net value :
  computeMetrics float_of_str df inm = Ok df' →
  cell_num df' "ROI (%)" i = Some gross →
  cell_num df' "Net ROI (%)" i = Some net →
  cell_num df' "estimated_property_value" i = Some value →
  (∃ income, cell_num df' "annual_income" i = Some income ∧
     gross = pct income value ∧
     net = pct (net_annual_income income) value)
  ∧ ∀ a v : Q, ¬ (v == 0)%Q →
      (pct (net_annual_income a) v == pct a v - pct gastos_anuales v)%Q.
Proof.
  intros (p & c & ps & d & ds & Hp & Hc & Ha & Hd & Hn & ->)%computeMetrics_Ok_shape.
  intros Hg Hnet Hv. unfold cell_num, setitem in *. cbn [cols] in *.
  column_of Hg. column_of Hnet. column_of Hv. split.
  - apply lookup_map_Some in Hg as (q & Hq & ->).
    apply lookup_zip_with_Some in Hq as (income & v & -> & Hi & Hv').
    rewrite Hv in Hv'. injection Hv' as <-.
    apply lookup_map_Some in Hnet as (q' & Hq' & ->).
    apply lookup_zip_with_Some in Hq' as (n & v' & -> & Hn' & Hv').
    rewrite Hv in Hv'. injection Hv' as <-.
    apply lookup_map_Some in Hn' as (income' & Hi' & ->).
    rewrite Hi in Hi'. injection Hi' as <-.
    exists income. split; [|done].
    rewrite ?lookup_insert_ne by name_ne. by rewrite lookup_insert_eq.
  - intros a v Hv0. unfold pct, net_annual_income, gastos_anuales.
    cbn [nmul ndiv nsub nlit Q_arith]. field. exact Hv0.
Qed.

(** ** The Russafa scenario (C2) *)

#[local] Set Warnings "-inexact-float".

(** C2: for the one listing in Russafa at 50 a night rented 100 days, and
    any sale-price table whose mean precio is 2500, the block yields an
    estimated property value of 175000, an annual income of 5000, a net
    annual income of 2000, a gross ROI within 0.0005 of 2.857 and a net ROI
    within 0.0005 of 1.143. *)
Theorem scenario_russafa float_of_str inm xs :
  cols inm !! "precio" = Some (NumCol xs) →
  mean_skipna xs = 2500 →
  ∃ df', computeMetrics float_of_str (listing_russafa 50 100) inm = Ok df' ∧
    index df' = [0%nat] ∧
    cell_num df' "estimated_property_value" 0 = Some 175000 ∧
    cell_num df' "annual_income" 0 = Some 5000 ∧
    cell_num df' "net_annual_income" 0 = Some 2000 ∧
    (∃ gross, cell_num df' "ROI (%)" 0 = Some gross ∧
              (abs (gross - 2.857) <? 0.0005) = true) ∧
    (∃ net, cell_num df' "Net ROI (%)" 0 = Some net ∧
            (abs (net - 1.143) <? 0.0005) = true).
Proof.
  intros Hc Hm.
  pose proof (precio_m2_valencia_numeric _ _ Hc) as Hp. rewrite Hm in Hp.
  eexists. split.
  { exact (computeMetrics_numeric float_of_str (listing_russafa 50 100) inm
             [50] [100] 2500 eq_refl eq_refl Hp). }
  repeat split; try reflexivity.
  - eexists. split; [reflexivity | by vm_compute].
  - eexists. split; [reflexivity | by vm_compute].
Qed.

(** ** One estimated value for all rows (C3) *)

(** C3: whenever the block succeeds, every row of the result carries the
    same estimated property value: the reference price, which is computed
    from the sale-price table alone, times 70. *)
Theorem estimated_property_value_broadcast float_of_str df inm df' :
  computeMetrics float_of_str df inm = Ok df' →
  ∃ p, precio_m2_valencia inm = Ok p ∧
    ∀ i, (i < len df')%nat →
      cell_num df' "estimated_property_value" i = Some (p * 70).
Proof.
  intros H. apply computeMetrics_Ok_inv in H as (Hi & p & Hp & Hc).
  exists p. split; [exact Hp|]. intros i Hlt.
  unfold cell_num. rewrite Hc. apply lookup_replicate_2.
  unfold len in *. by rewrite <- Hi.
Qed.

(** ** The reference price (C4) *)











(** ** A listing table without price (C9) *)

(** C9 (as the code behaves): on a listing table without a price column the
    block skips the coercion and then fails: reading the column for the
    annual income raises KeyError, unless the reference price has already
    failed.  No table is returned. *)
Theorem computeMetrics_sin_price float_of_str df inm :
  cols df !! "price" = None →
  computeMetrics float_of_str df inm =
    match precio_m2_valencia inm with
    | Ok _ => Err (KeyError "price")
    | Err e => Err e
    end.
Proof.
  intros E. unfold computeMetrics. rewrite (has_column_false _ _ E). cbn.
  destruct (precio_m2_valencia inm); cbn; [|done].
  by rewrite (getitem_None _ _ E).
Qed.

(** ** Row selection *)

Lemma mask_filter_map {A} (p : A → bool) (xs : list A) :
  mask_filter (map p xs) xs = List.filter p xs.
Proof.
  induction xs as [|x xs IH]; simpl; [done|].
  destruct (p x); by rewrite IH.
Qed.

Lemma mask_filter_Forall {A} (P : A → Prop) mask (xs : list A) :
  Forall P xs → Forall P (mask_filter mask xs).
Proof.
  intros H. revert mask. induction H as [|x xs Hx _ IH]; intros [|[] mask];
    simpl; auto.
Qed.

Lemma mask_filter_true {A} mask (xs : list A) :
  Forall (λ b, b = true) mask → length mask = length xs →
  mask_filter mask xs = xs.
Proof.
  intros H. revert xs. induction H as [|b mask -> _ IH]; intros [|x xs] Hl;
    simpl in *; try done.
  f_equal. apply IH. lia.
Qed.

Lemma mask_filter_length {A B} mask (xs : list A) (ys : list B) :
  length xs = length ys →
  length (mask_filter mask xs) = length (mask_filter mask ys).
Proof.
  revert xs ys. induction mask as [|b mask IH]; intros [|x xs] [|y ys] Hl;
    simpl in *; try done.
  destruct b; simpl; auto.
Qed.

Lemma map_mask_filter {A B} (f : A → B) mask (xs : list A) :
  map f (mask_filter mask xs) = mask_filter mask (map f xs).
Proof.
  revert xs. induction mask as [|b mask IH]; intros [|x xs]; simpl; try done.
  destruct b; simpl; by rewrite IH.
Qed.

(** The cells a mask built from the column itself lets through all satisfy
    the test, so testing the survivors again keeps every one of them. *)
Lemma retest_true {A} (p : A → bool) mask (xs : list A) :
  Forall (λ b, b = true) (map p (mask_filter mask (List.filter p xs))).
Proof.
  apply Forall_map. apply mask_filter_Forall.
  apply List.Forall_forall. intros x Hx. by apply List.filter_In in Hx as [_ ?].
Qed.

Lemma col_len_select mask c df :
  col_len c = len df → col_len (col_select mask c) = len (select_rows mask df).
Proof.
  unfold len. destruct c; simpl; intros H; by apply mask_filter_length.
Qed.

Lemma wf_select_rows mask df : wf df → wf (select_rows mask df).
Proof.
  intros Hwf k c. simpl. rewrite lookup_fmap.
  destruct (cols df !! k) as [c0|] eqn:E; simpl; [|done].
  intros [= <-]. apply col_len_select. by apply (Hwf k).
Qed.

Lemma cols_select_rows mask df k :
  cols (select_rows mask df) !! k = col_select mask <$> cols df !! k.
Proof. simpl. apply lookup_fmap. Qed.

Lemma getitem_select_rows mask df k c :
  getitem df k = Ok c →
  getitem (select_rows mask df) k = Ok (col_select mask c).
Proof.
  intros H%getitem_Ok. apply getitem_Some. by rewrite cols_select_rows, H.
Qed.

Lemma getitem_select_rows_inv mask df k c' :
  getitem (select_rows mask df) k = Ok c' →
  ∃ c, getitem df k = Ok c ∧ c' = col_select mask c.
Proof.
  intros H%getitem_Ok. rewrite cols_select_rows in H.
  destruct (cols df !! k) as [c|] eqn:E; simplify_eq/=.
  exists c. split; [by apply getitem_Some | done].
Qed.

Lemma has_column_select_rows mask df k :
  has_column k (select_rows mask df) = has_column k df.
Proof.
  destruct (cols df !! k) as [c|] eqn:E.
  - rewrite (has_column_true _ _ _ E).
    apply (has_column_true _ _ (col_select mask c)).
    by rewrite cols_select_rows, E.
  - rewrite (has_column_false _ _ E). apply has_column_false.
    by rewrite cols_select_rows, E.
Qed.

(** Selecting with a mask that is set everywhere changes nothing. *)
Lemma select_rows_true mask df :
  wf df → Forall (λ b, b = true) mask → length mask = len df →
  select_rows mask df = df.
Proof.
  intros Hwf Ht Hl. destruct df as [ix cs]. unfold select_rows, len in *.
  simpl in *. f_equal; [by apply mask_filter_true|].
  apply map_eq. intros k. rewrite lookup_fmap.
  destruct (cs !! k) as [c|] eqn:E; simpl; [|done].
  f_equal. specialize (Hwf k c E). unfold len in Hwf. simpl in Hwf.
  destruct c; simpl in *; f_equal; apply mask_filter_true; auto; congruence.
Qed.


(** ** Sorting and first occurrences *)

Section Sorting.
Context {A : Type} (leb : A → A → bool).

Lemma insert_by_perm x l : insert_by leb x l ≡ₚ x :: l.
Proof.
  induction l as [|y l IH]; simpl; [done|].
  destruct (leb x y); [done|]. rewrite IH. apply Permutation_swap.
Qed.

Lemma sorted_by_perm l : sorted_by leb l ≡ₚ l.
Proof.
  induction l as [|x l IH]; simpl; [done|].
  by rewrite insert_by_perm, IH.
Qed.

Lemma sorted_by_elem x l : x ∈ sorted_by leb l ↔ x ∈ l.
Proof. by rewrite sorted_by_perm. Qed.

Hypothesis leb_total : ∀ x y, leb x y = true ∨ leb y x = true.

Lemma insert_by_Sorted x l :
  Sorted (λ a b, leb a b = true) l →
  Sorted (λ a b, leb a b = true) (insert_by leb x l).
Proof.
  induction 1 as [|y l Hs IH Hd]; simpl; [by repeat constructor|].
  destruct (leb x y) eqn:E.
  - constructor; [by constructor | by constructor].
  - constructor; [exact IH|].
    destruct (leb_total x y) as [?|Hyx]; [congruence|].
    destruct Hd as [|z l Hyz]; simpl; [by constructor|].
    destruct (leb x z); by constructor.
Qed.

Lemma sorted_by_Sorted l : Sorted (λ a b, leb a b = true) (sorted_by leb l).
Proof.
  induction l as [|x l IH]; simpl; [constructor | by apply insert_by_Sorted].
Qed.
End Sorting.

Section Unique.
Context {A : Type} (eqb : A → A → bool).

Lemma unique_from_sub seen xs x : x ∈ unique_from eqb seen xs → x ∈ xs.
Proof.
  revert seen. induction xs as [|y xs IH]; intros seen; simpl; [done|].
  destruct (existsb (eqb y) seen).
  - intros H%IH. by right.
  - intros [->|H%IH]%elem_of_cons; [by left | by right].
Qed.

(** Every value of the input is matched by a value that [unique] keeps. *)
Lemma unique_from_covers seen xs x :
  eqb x x = true → x ∈ xs →
  ∃ y, (y ∈ seen ∨ y ∈ unique_from eqb seen xs) ∧ eqb x y = true.
Proof.
  intros Hr. revert seen. induction xs as [|z xs IH]; intros seen Hx;
    [by apply elem_of_nil in Hx|].
  simpl. apply elem_of_cons in Hx as [<-|Hx].
  - destruct (existsb (eqb x) seen) eqn:E.
    + apply existsb_exists in E as (y & Hy%list_elem_of_In & Hxy). eauto.
    + exists x. split; [right; by left | done].
  - destruct (existsb (eqb z) seen).
    + by apply IH.
    + destruct (IH (z :: seen) Hx) as (y & [Hy|Hy] & Hxy).
      * apply elem_of_cons in Hy as [->|Hy].
        -- exists z. split; [right; by left | done].
        -- exists y. split; [by left | done].
      * exists y. split; [right; by right | done].
Qed.

Lemma unique_covers xs x :
  eqb x x = true → x ∈ xs → ∃ y, y ∈ unique eqb xs ∧ eqb x y = true.
Proof.
  intros Hr Hx. destruct (unique_from_covers [] xs x Hr Hx) as (y & [Hy|Hy] & ?);
    [by apply elem_of_nil in Hy | eauto].
Qed.

Hypothesis eqb_eq : ∀ x y, eqb x y = true ↔ x = y.

Lemma unique_from_NoDup seen xs :
  NoDup (unique_from eqb seen xs) ∧
  ∀ x, x ∈ unique_from eqb seen xs → x ∉ seen.
Proof.
  revert seen. induction xs as [|z xs IH]; intros seen; simpl.
  { split; [constructor | by intros x ?%elem_of_nil]. }
  destruct (existsb (eqb z) seen) eqn:E; [apply IH|].
  destruct (IH (z :: seen)) as [Hnd Hfresh]. split.
  - constructor; [|exact Hnd]. intros Hz%Hfresh. apply Hz. by left.
  - intros x [->|Hx]%elem_of_cons.
    + intros Hin. apply not_true_iff_false in E. apply E.
      apply existsb_exists. exists z. split; [by apply list_elem_of_In|].
      by apply eqb_eq.
    + intros Hin. apply (Hfresh x Hx). by right.
Qed.

Lemma unique_elem xs x : x ∈ unique eqb xs ↔ x ∈ xs.
Proof.
  split; [apply unique_from_sub|]. intros Hx.
  destruct (unique_covers xs x) as (y & Hy & ->%eqb_eq); auto.
  by apply eqb_eq.
Qed.
End Unique.

(** ** Floats: NaN and equality *)

Lemma eqb_refl_not_nan x : PrimFloat.is_nan x = false → (x =? x) = true.
Proof. unfold PrimFloat.is_nan. by intros ?%negb_false_iff. Qed.

Lemma SFeqb_refl_not_nan f : f ≠ S754_nan → SFeqb f f = true.
Proof.
  unfold SFeqb, SFcompare. destruct f as [s|s| |s m e]; try done.
  - by destruct s.
  - intros _. rewrite Z.compare_refl, Pos.compare_cont_refl. by destruct s.
Qed.

Lemma eqb_nan_l x y : PrimFloat.is_nan x = true → (x =? y) = false.
Proof.
  unfold PrimFloat.is_nan. intros H%negb_true_iff.
  rewrite FloatAxioms.eqb_spec in *.
  destruct (Prim2SF x) eqn:E; try (by rewrite SFeqb_refl_not_nan in H).
  reflexivity.
Qed.

(** ** The neighbourhood universe and membership in it *)

Lemma cells_col_select mask c :
  cells (col_select mask c) = mask_filter mask (cells c).
Proof. destruct c; simpl; apply map_mask_filter. Qed.

Lemma length_cells c : length (cells c) = col_len c.
Proof. destruct c; simpl; apply length_map. Qed.

Lemma length_isin c values : length (isin c values) = col_len c.
Proof. unfold isin. by rewrite length_map, length_cells. Qed.

Lemma dropna_str_elem xs s : s ∈ dropna_str xs ↔ Some s ∈ xs.
Proof.
  unfold dropna_str. rewrite list_elem_of_omap. split.
  - by intros ([?|] & ? & [= ->]).
  - intros ?. by exists (Some s).
Qed.

Lemma barrios_str_elem xs k :
  k ∈ barrios_of (ObjCol xs) ↔ ∃ s, k = LStr s ∧ Some s ∈ xs.
Proof.
  simpl. rewrite list_elem_of_fmap.
  setoid_rewrite sorted_by_elem.
  setoid_rewrite (unique_elem String.eqb String.eqb_eq).
  setoid_rewrite dropna_str_elem. done.
Qed.

Lemma barrios_num_elem xs k :
  k ∈ barrios_of (NumCol xs) →
  ∃ x, k = LNum x ∧ x ∈ xs ∧ PrimFloat.is_nan x = false.
Proof.
  simpl. rewrite list_elem_of_fmap. intros (x & -> & Hx).
  apply sorted_by_elem, unique_from_sub, dropna_num_elem in Hx. eauto.
Qed.

Lemma barrios_no_nan c : Forall (λ k, label_is_nan k = false) (barrios_of c).
Proof.
  apply List.Forall_forall. intros k Hk%list_elem_of_In. destruct c.
  - by apply barrios_num_elem in Hk as (x & -> & _ & ?).
  - by apply barrios_str_elem in Hk as (s & -> & _).
Qed.

Lemma existsb_false {A} (p : A → bool) l :
  (∀ x, x ∈ l → p x = false) → existsb p l = false.
Proof.
  intros H. apply not_true_iff_false. intros (x & Hx & Hp)%existsb_exists.
  apply list_elem_of_In, H in Hx. congruence.
Qed.

(** A missing cell is in no set of values that is free of NaN. *)
Lemma isin_cell_missing values v :
  Forall (λ k, label_is_nan k = false) values →
  isna v = true → isin_cell values v = false.
Proof.
  intros Hv Hna. rewrite List.Forall_forall in Hv.
  destruct v as [x|[s|]]; simpl in *; try done; apply existsb_false;
    intros k Hk%list_elem_of_In%Hv.
  - destruct k as [y|]; [|done]. simpl in Hk.
    by rewrite (eqb_nan_l _ _ Hna), Hk, andb_false_r.
  - done.
Qed.

Lemma isin_select_no_missing c values :
  Forall (λ k, label_is_nan k = false) values →
  no_missing (col_select (isin c values) c).
Proof.
  intros Hv. unfold no_missing, isin.
  rewrite cells_col_select, mask_filter_map.
  apply List.Forall_forall. intros v [_ Hin]%List.filter_In.
  destruct (isna v) eqn:E; [|done].
  by rewrite (isin_cell_missing _ _ Hv E) in Hin.
Qed.

(** A column without missing cells lies within its own universe. *)
Lemma isin_own_universe c :
  no_missing c → Forall (λ b, b = true) (isin c (barrios_of c)).
Proof.
  unfold no_missing, isin. intros H. apply Forall_map.
  apply List.Forall_forall. intros v Hv%list_elem_of_In.
  rewrite List.Forall_forall in H.
  pose proof (H v (proj1 (list_elem_of_In _ _) Hv)) as Hna.
  destruct c as [xs|xs]; simpl in Hv;
    apply list_elem_of_fmap in Hv as (x & -> & Hx); simpl in *.
  - destruct (unique_covers PrimFloat.eqb (dropna_num xs) x) as (y & Hy & Hxy).
    { by apply eqb_refl_not_nan. }
    { by apply dropna_num_elem. }
    apply existsb_exists. exists (LNum y). split; [|by rewrite Hxy].
    apply list_elem_of_In, list_elem_of_fmap. exists y.
    split; [done | by apply sorted_by_elem].
  - destruct x as [s|]; [|done].
    apply existsb_exists. exists (LStr s). split; [|apply String.eqb_refl].
    apply list_elem_of_In, (barrios_str_elem xs). eauto.
Qed.

(** ** The filter, path by path *)

Lemma narrow_barrios_eq pick df :
  narrow_barrios pick df =
    match getitem df "neighbourhood" with
    | Ok nb =>
        Script [barrios_widget nb]
          (Done (select_rows (isin nb (widget_value pick (barrios_of nb))) df))
    | Err e => Script [] (Raised e)
    end.
Proof. unfold narrow_barrios. by destruct (getitem df "neighbourhood"). Qed.

Lemma filter_listings_eq u df :
  filter_listings u df =
    if has_column "city" df then
      match narrow_city (ciudad_name (pick_ciudad u)) df with
      | Err e => Script widgets_city (Raised e)
      | Ok dc =>
          if empty dc then Script (widgets_city ++ [st_warning sin_ciudad]) Stopped
          else
            match getitem dc "neighbourhood" with
            | Err e => Script widgets_city (Raised e)
            | Ok nb =>
                let out := select_rows
                  (isin nb (widget_value (pick_barrios u) (barrios_of nb))) dc in
                if empty out then
                  Script (widgets_city ++
                          [barrios_widget nb; st_warning sin_barrios_ciudad]) Stopped
                else Script (widgets_city ++ [barrios_widget nb]) (Done out)
            end
      end
    else
      match getitem df "neighbourhood" with
      | Err e => Script widgets_sin_city (Raised e)
      | Ok nb =>
          let out := select_rows
            (isin nb (widget_value (pick_barrios u) (barrios_of nb))) df in
          if empty out then
            Script (widgets_sin_city ++ [barrios_widget nb; st_warning sin_barrios])
              Stopped
          else Script (widgets_sin_city ++ [barrios_widget nb]) (Done out)
      end.
Proof.
  unfold filter_listings. destruct (has_column "city" df).
  - destruct (narrow_city _ df) as [dc|e] eqn:E; cbn; rewrite E; cbn; [|done].
    destruct (empty dc); [done|]. rewrite narrow_barrios_eq.
    destruct (getitem dc "neighbourhood") as [nb|e]; cbn; [|done].
    by destruct (empty _).
  - cbn. rewrite narrow_barrios_eq.
    destruct (getitem df "neighbourhood") as [nb|e]; cbn; [|done].
    by destruct (empty _).
Qed.

Lemma narrow_city_eq sel df :
  narrow_city sel df =
    match getitem df "city" with
    | Ok (ObjCol cs) => Ok (select_rows (map (city_test (lower sel)) cs) df)
    | Ok (NumCol _) => Err AttributeError
    | Err e => Err e
    end.
Proof.
  unfold narrow_city. destruct (getitem df "city") as [[xs|cs]|e]; cbn; try done.
  unfold eq_scalar. by rewrite map_map.
Qed.

Lemma narrow_city_Ok_inv sel df dc :
  narrow_city sel df = Ok dc →
  ∃ cs, getitem df "city" = Ok (ObjCol cs) ∧
        dc = select_rows (map (city_test (lower sel)) cs) df.
Proof.
  rewrite narrow_city_eq. destruct (getitem df "city") as [[xs|cs]|e]; try done.
  intros [= <-]. eauto.
Qed.

(** ** Filtering a filtered table *)

(** Narrowing by city again, after any further selection of rows, keeps
    every row. *)
Lemma narrow_city_again sel df dc mask :
  wf df → narrow_city sel df = Ok dc →
  narrow_city sel (select_rows mask dc) = Ok (select_rows mask dc).
Proof.
  intros Hwf (cs & Hc & ->)%narrow_city_Ok_inv.
  set (m1 := map (city_test (lower sel)) cs).
  assert (wf (select_rows mask (select_rows m1 df))) as Hwf'
    by by do 2 apply wf_select_rows.
  rewrite narrow_city_eq.
  rewrite (getitem_select_rows _ _ _ _ (getitem_select_rows m1 _ _ _ Hc)).
  simpl col_select. f_equal. apply select_rows_true; [done|..].
  - unfold m1. rewrite mask_filter_map. apply retest_true.
  - rewrite length_map.
    apply (Hwf' "city" (ObjCol (mask_filter mask (mask_filter m1 cs)))).
    apply getitem_Ok.
    exact (getitem_select_rows _ _ _ _ (getitem_select_rows m1 _ _ _ Hc)).
Qed.

(** Narrowing by neighbourhood again, with the same pick, keeps every row. *)
Lemma narrow_barrios_again pick dc nb :
  wf dc → getitem dc "neighbourhood" = Ok nb →
  let out := select_rows (isin nb (widget_value pick (barrios_of nb))) dc in
  ∃ nb', getitem out "neighbourhood" = Ok nb' ∧
         select_rows (isin nb' (widget_value pick (barrios_of nb'))) out = out.
Proof.
  intros Hwf Hnb out.
  set (m := isin nb (widget_value pick (barrios_of nb))) in *.
  exists (col_select m nb). split; [by apply getitem_select_rows|].
  assert (wf out) as Hwf' by by apply wf_select_rows.
  apply select_rows_true; [done|..].
  - destruct pick as [chosen|]; simpl widget_value in *.
    + unfold m, isin. rewrite cells_col_select, mask_filter_map.
      apply Forall_map, List.Forall_forall.
      by intros v [_ ?]%List.filter_In.
    + apply isin_own_universe. apply isin_select_no_missing, barrios_no_nan.
  - rewrite length_isin. apply (Hwf' "neighbourhood").
    apply getitem_Ok. by apply getitem_select_rows.
Qed.

(** ** Idempotence (C7) *)

(** C7: filtering is idempotent.  When the filter hands a table on, running
    it on that table with the same city and the same neighbourhood pick
    hands on the very same table. *)
Theorem filter_idempotent u df df' :
  wf df →
  ending (filter_listings u df) = Done df' →
  ending (filter_listings u df') = Done df'.
Proof.
  intros Hwf. rewrite !filter_listings_eq.
  destruct (has_column "city" df) eqn:Hcity.
  - destruct (narrow_city _ df) as [dc|e] eqn:Hdc; [|done].
    destruct (empty dc) eqn:Hdce; [done|].
    destruct (getitem dc "neighbourhood") as [nb|e] eqn:Hnb; [|done].
    cbv zeta. destruct (empty (select_rows _ dc)) eqn:Houte; [done|].
    simpl. intros [= <-].
    assert (wf dc) as Hwfdc.
    { apply narrow_city_Ok_inv in Hdc as (cs & _ & ->). by apply wf_select_rows. }
    destruct (narrow_city_Ok_inv _ _ _ Hdc) as (cs & _ & Edc).
    rewrite has_column_select_rows. rewrite Edc at 1.
    rewrite has_column_select_rows, Hcity.
    rewrite (narrow_city_again _ _ _ _ Hwf Hdc), Houte.
    destruct (narrow_barrios_again (pick_barrios u) dc nb Hwfdc Hnb)
      as (nb' & -> & ->).
    by rewrite Houte.
  - destruct (getitem df "neighbourhood") as [nb|e] eqn:Hnb; [|done].
    cbv zeta. destruct (empty (select_rows _ df)) eqn:Houte; [done|].
    simpl. intros [= <-].
    rewrite has_column_select_rows, Hcity.
    destruct (narrow_barrios_again (pick_barrios u) df nb Hwf Hnb)
      as (nb' & -> & ->).
    by rewrite Houte.
Qed.

Lemma wf_listings_demo : wf listings_demo.
Proof. wf_sample. Qed.

Lemma filter_listings_demo :
  filter_listings (User Valencia None) listings_demo =
    Script (widgets_city ++
            [barrios_widget (ObjCol [Some "Russafa"; None; Some "Benimaclet"])])
           (Done listings_demo_valencia).
Proof. vm_compute. reflexivity. Qed.

(** ** Missing neighbourhoods (C10) *)

Lemma zip_mask_filter {A B} mask (xs : list A) (ys : list B) :
  zip (mask_filter mask xs) (mask_filter mask ys) = mask_filter mask (zip xs ys).
Proof.
  revert xs ys. induction mask as [|b mask IH]; intros xs ys; [done|].
  destruct xs as [|x xs], ys as [|y ys]; simpl; try done.
  - destruct b; simpl; by destruct (mask_filter mask xs).
  - destruct b; simpl; by rewrite IH.
Qed.

Lemma mask_filter_sub {A} mask (xs : list A) x :
  x ∈ mask_filter mask xs → x ∈ xs.
Proof.
  revert xs. induction mask as [|b mask IH]; intros xs.
  { by intros ?%elem_of_nil. }
  destruct xs as [|y xs]; simpl; [by intros ?%elem_of_nil|].
  destruct b.
  - intros [->|H]%elem_of_cons; [by left | right; by apply IH].
  - intros H. right. by apply IH.
Qed.

Lemma widget_value_no_nan pick nb :
  (∀ chosen, pick = Some chosen → Forall (λ k, label_is_nan k = false) chosen) →
  Forall (λ k, label_is_nan k = false) (widget_value pick (barrios_of nb)).
Proof.
  intros H. destruct pick as [chosen|]; simpl; [by apply H | apply barrios_no_nan].
Qed.

Lemma labelled_select_rows mask df nb :
  labelled (select_rows mask df) (col_select mask nb)
    = mask_filter mask (labelled df nb).
Proof. unfold labelled. simpl. by rewrite cells_col_select, zip_mask_filter. Qed.

(** C10: a row whose neighbourhood is missing never passes the filter, under
    the default selection or any pick among offered names (which are never
    NaN): the table handed on has a neighbourhood column without missing
    cells, and each of its rows is a row of the input whose neighbourhood is
    present. *)
Theorem missing_neighbourhood_excluded u df df' nb :
  (∀ chosen, pick_barrios u = Some chosen →
     Forall (λ k, label_is_nan k = false) chosen) →
  cols df !! "neighbourhood" = Some nb →
  ending (filter_listings u df) = Done df' →
  ∃ nb', cols df' !! "neighbourhood" = Some nb' ∧
    no_missing nb' ∧
    ∀ i v, (i, v) ∈ labelled df' nb' → (i, v) ∈ labelled df nb ∧ isna v = false.
Proof.
  intros Hpick Hnb%getitem_Some. rewrite filter_listings_eq.
  assert (∀ d c, getitem d "neighbourhood" = Ok c →
    (∀ iv, iv ∈ labelled d c → iv ∈ labelled df nb) →
    let out := select_rows
      (isin c (widget_value (pick_barrios u) (barrios_of c))) d in
    ∃ nb', cols out !! "neighbourhood" = Some nb' ∧ no_missing nb' ∧
      ∀ i v, (i, v) ∈ labelled out nb' →
             (i, v) ∈ labelled df nb ∧ isna v = false) as Hstep.
  { intros d c Hc Hsub out. exists (col_select (isin c
      (widget_value (pick_barrios u) (barrios_of c))) c).
    pose proof (isin_select_no_missing c _
                  (widget_value_no_nan _ c Hpick)) as Hnm.
    split; [by apply getitem_Ok, getitem_select_rows|]. split; [done|].
    intros i v Hiv. split.
    - apply Hsub. unfold out in Hiv. rewrite labelled_select_rows in Hiv.
      by apply mask_filter_sub in Hiv.
    - unfold no_missing in Hnm. rewrite List.Forall_forall in Hnm.
      apply Hnm, list_elem_of_In. unfold labelled in Hiv.
      by apply elem_of_zip_r in Hiv. }
  destruct (has_column "city" df).
  - destruct (narrow_city _ df) as [dc|e] eqn:Hdc; [|done].
    destruct (empty dc); [done|].
    destruct (getitem dc "neighbourhood") as [nbc|e] eqn:Hnbc; [|done].
    cbv zeta. destruct (empty (select_rows _ dc)); [done|].
    simpl. intros [= <-].
    apply (Hstep dc nbc Hnbc).
    apply narrow_city_Ok_inv in Hdc as (cs & _ & ->).
    apply getitem_select_rows_inv in Hnbc as (c & Hc & ->).
    rewrite Hnb in Hc. injection Hc as <-.
    intros iv. rewrite labelled_select_rows. apply mask_filter_sub.
  - destruct (getitem df "neighbourhood") as [c|e] eqn:Hc; [|done].
    injection Hnb as ->.
    cbv zeta. destruct (empty (select_rows _ df)); [done|].
    simpl. intros [= <-]. by apply (Hstep df nb Hc).
Qed.

(** ** The steps of the filter (C5) *)

Lemma N_of_lower_char c :
  Ascii.N_of_ascii (lower_char c) =
    (let n := Ascii.N_of_ascii c in
     if (65 <=? n) && (n <=? 90) then n + 32 else n)%N.
Proof.
  unfold lower_char. cbv zeta.
  destruct (N.leb_spec 65 (Ascii.N_of_ascii c)),
           (N.leb_spec (Ascii.N_of_ascii c) 90); simpl; try done.
  apply Ascii.N_ascii_embedding. lia.
Qed.

Lemma lower_char_eq a b :
  lower_char a = lower_char b ↔
  Ascii.N_of_ascii (lower_char a) = Ascii.N_of_ascii (lower_char b).
Proof.
  split; [by intros ->|]. intros E.
  rewrite <- (Ascii.ascii_N_embedding (lower_char a)), E.
  apply Ascii.ascii_N_embedding.
Qed.

Lemma same_letter_lower a b :
  same_letter a b = bool_decide (lower_char a = lower_char b).
Proof.
  pose proof (Ascii.N_ascii_bounded a) as Ha.
  pose proof (Ascii.N_ascii_bounded b) as Hb.
  unfold same_letter. cbv zeta.
  destruct (bool_decide_reflect (lower_char a = lower_char b)) as [E|E];
    rewrite lower_char_eq, !N_of_lower_char in E; cbv zeta in E;
    destruct (N.leb_spec 65 (Ascii.N_of_ascii a)),
             (N.leb_spec (Ascii.N_of_ascii a) 90),
             (N.leb_spec 65 (Ascii.N_of_ascii b)),
             (N.leb_spec (Ascii.N_of_ascii b) 90),
             (N.eqb_spec (Ascii.N_of_ascii a) (Ascii.N_of_ascii b)),
             (N.eqb_spec (Ascii.N_of_ascii b) (Ascii.N_of_ascii a + 32)),
             (N.eqb_spec (Ascii.N_of_ascii a) (Ascii.N_of_ascii b + 32));
    simpl in *; try done; lia.
Qed.

Lemma same_text_lower s t : same_text s t = bool_decide (lower s = lower t).
Proof.
  revert t. induction s as [|a s IH]; intros [|b t]; simpl; try done.
  rewrite same_letter_lower, IH.
  destruct (bool_decide_reflect (lower_char a = lower_char b)) as [->|Hab];
    destruct (bool_decide_reflect (lower s = lower t)) as [->|Hst]; simpl;
    symmetry; [by apply bool_decide_eq_true|..];
    apply bool_decide_eq_false; congruence.
Qed.

Lemma city_test_same sel c : city_test (lower sel) c = same_city sel c.
Proof.
  unfold city_test, same_city. destruct c as [s|]; simpl; [|done].
  by rewrite same_text_lower.
Qed.

Lemma isin_str_named keep c :
  Forall (λ k, label_is_nan k = false) keep →
  isin_str keep c = named_in keep c.
Proof.
  intros Hk. destruct c as [s|].
  - clear Hk. simpl. induction keep as [|[y|t] keep IH]; simpl; [done|exact IH|].
    rewrite IH. destruct (String.eqb_spec s t) as [->|Hne]; simpl.
    + symmetry. apply bool_decide_eq_true. by left.
    + apply bool_decide_ext. rewrite elem_of_cons.
      split; [by right | by intros [?|?]].
  - exact (isin_cell_missing keep (CStr None) Hk eq_refl).
Qed.

Lemma mask_filter_cells_where {A B} (test : B → bool) tested (xs : list A) :
  mask_filter (map test tested) xs = cells_where test tested xs.
Proof.
  unfold cells_where. revert xs.
  induction tested as [|t tested IH]; intros [|x xs]; simpl; try done.
  destruct (test t); simpl; by rewrite IH.
Qed.

Lemma mask_filter_nil {A} mask : mask_filter mask (@nil A) = [].
Proof. by destruct mask. Qed.

(** Selecting in a selection is selecting the rows that pass both tests. *)
Lemma mask_filter_twice {A B C} (p1 : B → bool) (p2 : C → bool) cs ns (xs : list A) :
  mask_filter (map p2 (mask_filter (map p1 cs) ns)) (mask_filter (map p1 cs) xs)
    = cells_where (λ cn, p1 cn.1 && p2 cn.2) (zip cs ns) xs.
Proof.
  unfold cells_where. revert ns xs.
  induction cs as [|c cs IH]; intros [|n ns] [|x xs]; simpl; try done.
  - apply mask_filter_nil.
  - destruct (p1 c); simpl; [|apply IH].
    destruct (p2 n); simpl; by rewrite IH.
Qed.

Lemma select_rows_rows_where {B} (test : B → bool) tested df :
  select_rows (map test tested) df = rows_where test tested df.
Proof.
  unfold select_rows, rows_where. f_equal; [apply mask_filter_cells_where|].
  apply map_fmap_ext. intros k [xs|xs] _; simpl;
    by rewrite mask_filter_cells_where.
Qed.

Lemma select_rows_twice {B C} (p1 : B → bool) (p2 : C → bool) cs ns df :
  select_rows (map p2 (mask_filter (map p1 cs) ns)) (select_rows (map p1 cs) df)
    = rows_where (λ cn, p1 cn.1 && p2 cn.2) (zip cs ns) df.
Proof.
  unfold select_rows, rows_where. simpl. f_equal; [apply mask_filter_twice|].
  rewrite <- map_fmap_compose. apply map_fmap_ext.
  intros k [xs|xs] _; simpl; by rewrite mask_filter_twice.
Qed.

Lemma cols_rows_where {B} (test : B → bool) tested df k :
  cols (rows_where test tested df) !! k = column_where test tested <$> cols df !! k.
Proof. unfold rows_where. simpl. apply lookup_fmap. Qed.

Lemma string_compare_lt_trans s1 s2 s3 :
  String.compare s1 s2 = Lt → String.compare s2 s3 = Lt →
  String.compare s1 s3 = Lt.
Proof.
  revert s2 s3. induction s1 as [|a s1 IH]; intros [|b s2] [|c s3]; simpl;
    try done.
  destruct (Ascii.compare a b) eqn:Eab; try done.
  - apply Ascii.compare_eq_iff in Eab as ->.
    destruct (Ascii.compare b c); try done. apply IH.
  - intros _. destruct (Ascii.compare b c) eqn:Ebc; try done.
    + apply Ascii.compare_eq_iff in Ebc as <-. by rewrite Eab.
    + intros _. unfold Ascii.compare in *.
      apply N.compare_lt_iff in Eab, Ebc.
      replace (_ ?= _)%N with Lt; [done|].
      symmetry. apply N.compare_lt_iff. by etrans.
Qed.

Lemma string_leb_trans s1 s2 s3 :
  String.leb s1 s2 = true → String.leb s2 s3 = true → String.leb s1 s3 = true.
Proof.
  unfold String.leb.
  destruct (String.compare s1 s2) eqn:E12; try done;
    destruct (String.compare s2 s3) eqn:E23; try done; intros _ _.
  - apply String.compare_eq_iff in E12 as ->. by rewrite E23.
  - apply String.compare_eq_iff in E12 as ->. by rewrite E23.
  - apply String.compare_eq_iff in E23 as <-. by rewrite E12.
  - by rewrite (string_compare_lt_trans _ _ _ E12 E23).
Qed.

Lemma barrios_universe ns : universe_of ns (barrios_of (ObjCol ns)).
Proof.
  exists (sorted_by String.leb (unique String.eqb (dropna_str ns))).
  split; [done|]. split.
  { apply Sorted_StronglySorted; [|apply sorted_by_Sorted, String.leb_total].
    intros ???. apply string_leb_trans. }
  split.
  - rewrite sorted_by_perm. apply (unique_from_NoDup _ String.eqb_eq).
  - intros s. rewrite sorted_by_elem, (unique_elem _ String.eqb_eq).
    apply dropna_str_elem.
Qed.

Lemma empty_len df k c :
  cols df !! k = Some c → empty df = bool_decide (len df = 0%nat).
Proof.
  intros E. unfold empty.
  replace (bool_decide (size (cols df) = 0%nat)) with false; [apply orb_false_r|].
  symmetry. apply bool_decide_eq_false.
  intros H%map_size_empty_iff. rewrite H in E. by rewrite lookup_empty in E.
Qed.

Lemma empty_select_rows mask df k c :
  cols df !! k = Some c →
  empty (select_rows mask df) = bool_decide (len (select_rows mask df) = 0%nat).
Proof.
  intros E. apply (empty_len _ k (col_select mask c)).
  by rewrite cols_select_rows, E.
Qed.

(** C5: the steps of the filter on text columns.  With a city column, the
    rows kept first are exactly those whose city is the selected one, case
    apart; the neighbourhood widget then offers, and defaults to, the names
    of those rows, each once and in ascending order; the rows handed on are
    exactly those of the table whose city is the selected one, case apart,
    and whose neighbourhood is, letter for letter, one of the names kept.
    Without a city column the names come from the whole table and only the
    second test is applied.  (A table narrowed to no row at all is the
    subject of C6; a pick holds offered names, which are never NaN.) *)
Theorem filter_steps u df ns :
  (∀ chosen, pick_barrios u = Some chosen →
     Forall (λ k, label_is_nan k = false) chosen) →
  cols df !! "neighbourhood" = Some (ObjCol ns) →
  (∀ cs, cols df !! "city" = Some (ObjCol cs) →
     let in_city := same_city (ciudad_name (pick_ciudad u)) in
     let ns_ciudad := cells_where in_city cs ns in
     let U := barrios_of (ObjCol ns_ciudad) in
     let keep := widget_value (pick_barrios u) U in
     let out := rows_where (λ cn, in_city cn.1 && named_in keep cn.2)
                  (zip cs ns) df in
     let widget := st_sidebar_multiselect "Selecciona barrios" U U in
     universe_of ns_ciudad U ∧
     (len (rows_where in_city cs df) ≠ 0%nat →
      filter_listings u df =
        match len out with
        | O => Script (widgets_city ++ [widget; st_warning sin_barrios_ciudad])
                 Stopped
        | S _ => Script (widgets_city ++ [widget]) (Done out)
        end))
  ∧ (cols df !! "city" = None →
     let U := barrios_of (ObjCol ns) in
     let keep := widget_value (pick_barrios u) U in
     let out := rows_where (named_in keep) ns df in
     let widget := st_sidebar_multiselect "Selecciona barrios" U U in
     universe_of ns U ∧
     filter_listings u df =
       match len out with
       | O => Script (widgets_sin_city ++ [widget; st_warning sin_barrios])
                Stopped
       | S _ => Script (widgets_sin_city ++ [widget]) (Done out)
       end).
Proof.
  intros Hpick Hnb. split.
  - intros cs Hcs in_city ns_ciudad U keep out widget.
    split; [apply barrios_universe|]. intros Hlen.
    assert (map (city_test (lower (ciudad_name (pick_ciudad u)))) cs
              = map in_city cs) as Hm1
      by (apply map_ext; intros c; apply city_test_same).
    assert (mask_filter (map in_city cs) ns = ns_ciudad) as Hns
      by apply mask_filter_cells_where.
    assert (isin (ObjCol ns_ciudad) keep = map (named_in keep) ns_ciudad) as Hin.
    { unfold isin. simpl cells. rewrite map_map. apply map_ext. intros c.
      apply isin_str_named. by apply widget_value_no_nan. }
    rewrite filter_listings_eq.
    rewrite (has_column_true _ _ _ Hcs), narrow_city_eq, (getitem_Some _ _ _ Hcs).
    rewrite Hm1.
    rewrite (empty_select_rows _ df _ _ Hcs).
    rewrite bool_decide_eq_false_2 by by rewrite select_rows_rows_where.
    assert (cols (select_rows (map in_city cs) df) !! "neighbourhood"
              = Some (ObjCol ns_ciudad)) as Hnb1
      by by rewrite cols_select_rows, Hnb; simpl; rewrite Hns.
    rewrite (getitem_Some _ _ _ Hnb1). cbv zeta.
    assert (select_rows (isin (ObjCol ns_ciudad) keep)
              (select_rows (map in_city cs) df) = out) as Hout.
    { rewrite Hin. unfold out, ns_ciudad. rewrite <- mask_filter_cells_where.
      apply select_rows_twice. }
    change (select_rows (isin _ _) _)
      with (select_rows (isin (ObjCol ns_ciudad) keep)
              (select_rows (map in_city cs) df)).
    rewrite Hout. change (barrios_widget (ObjCol ns_ciudad)) with widget.
    assert (cols out !! "neighbourhood" = Some (column_where
              (λ cn, in_city cn.1 && named_in keep cn.2) (zip cs ns) (ObjCol ns)))
      as Hnb2 by (unfold out; by rewrite cols_rows_where, Hnb).
    rewrite (empty_len _ _ _ Hnb2).
    destruct (len out) eqn:E;
      [rewrite bool_decide_eq_true_2 by done
      |rewrite bool_decide_eq_false_2 by done]; reflexivity.
  - intros Hcity U keep out widget.
    split; [apply barrios_universe|].
    assert (isin (ObjCol ns) keep = map (named_in keep) ns) as Hin.
    { unfold isin. simpl cells. rewrite map_map. apply map_ext. intros c.
      apply isin_str_named. by apply widget_value_no_nan. }
    rewrite filter_listings_eq.
    rewrite (has_column_false _ _ Hcity), (getitem_Some _ _ _ Hnb).
    cbv zeta.
    assert (select_rows (isin (ObjCol ns) keep) df = out) as Hout
      by (rewrite Hin; apply select_rows_rows_where).
    change (select_rows (isin _ _) _) with (select_rows (isin (ObjCol ns) keep) df).
    rewrite Hout. change (barrios_widget (ObjCol ns)) with widget.
    assert (cols out !! "neighbourhood"
              = Some (column_where (named_in keep) ns (ObjCol ns)))
      as Hnb2 by (unfold out; by rewrite cols_rows_where, Hnb).
    rewrite (empty_len _ _ _ Hnb2).
    destruct (len out) eqn:E;
      [rewrite bool_decide_eq_true_2 by done
      |rewrite bool_decide_eq_false_2 by done]; reflexivity.
Qed.

(** ** Empty selections (C6) *)

Lemma sbind_eq {A B} (m : script A) (f : A → script B) :
  m ≫= f =
    match ending m with
    | Done a => Script (calls m ++ calls (f a)) (ending (f a))
    | Stopped => Script (calls m) Stopped
    | Raised e => Script (calls m) (Raised e)
    end.
Proof. reflexivity. Qed.

Lemma app_eq float_of_str fs u :
  app float_of_str fs u =
    match ending (load_data fs) with
    | Done (Some df, Some df_inmobiliario, _) =>
        match computeMetrics float_of_str df df_inmobiliario with
        | Ok df =>
            match ending (filter_listings u df) with
            | Done df' =>
                Script (calls (load_data fs) ++ calls (filter_listings u df)
                        ++ [st_tabs main_tabs]) (Done df')
            | Stopped =>
                Script (calls (load_data fs) ++ calls (filter_listings u df)) Stopped
            | Raised e =>
                Script (calls (load_data fs) ++ calls (filter_listings u df))
                  (Raised e)
            end
        | Err e => Script (calls (load_data fs)) (Raised e)
        end
    | Done _ => Script (calls (load_data fs) ++ [st_warning sin_datos]) Stopped
    | Stopped => Script (calls (load_data fs)) Stopped
    | Raised e => Script (calls (load_data fs)) (Raised e)
    end.
Proof.
  unfold app. generalize (load_data fs). intros [l o].
  rewrite sbind_eq. cbn [calls ending].
  destruct o as [[[[a|] [b|]] c]| |e]; try reflexivity.
  rewrite sbind_eq.
  destruct (computeMetrics float_of_str a b) as [df|e]; cbn [lift calls ending];
    rewrite ?app_nil_r; [|done].
  rewrite sbind_eq. generalize (filter_listings u df). intros [l' o'].
  cbn [calls ending]. destruct o' as [df'| |e]; [|done..].
  rewrite sbind_eq. reflexivity.
Qed.

(** C6: an empty selection stops the run with a warning.  When the city
    narrowing leaves no row, the calls made are the two city widgets and the
    warning: the neighbourhood widget is never reached.  When the
    neighbourhood narrowing leaves no row, with or without a city column,
    the run ends on the warning of that branch.  In each case the script
    stops where the filter stops, before the views; and none of the three
    warnings is the one shown when the data could not be loaded. *)
Theorem no_matching_data u df :
  (∀ dc, has_column "city" df = true →
     narrow_city (ciudad_name (pick_ciudad u)) df = Ok dc →
     empty dc = true →
     filter_listings u df = Script (widgets_city ++ [st_warning sin_ciudad]) Stopped)
  ∧ (∀ dc nb, has_column "city" df = true →
     narrow_city (ciudad_name (pick_ciudad u)) df = Ok dc →
     empty dc = false →
     getitem dc "neighbourhood" = Ok nb →
     empty (select_rows
              (isin nb (widget_value (pick_barrios u) (barrios_of nb))) dc) = true →
     filter_listings u df =
       Script (widgets_city ++ [barrios_widget nb; st_warning sin_barrios_ciudad])
         Stopped)
  ∧ (∀ nb, has_column "city" df = false →
     getitem df "neighbourhood" = Ok nb →
     empty (select_rows
              (isin nb (widget_value (pick_barrios u) (barrios_of nb))) df) = true →
     filter_listings u df =
       Script (widgets_sin_city ++ [barrios_widget nb; st_warning sin_barrios])
         Stopped)
  ∧ (∀ float_of_str fs raw inm crimen,
     load_data fs = Script [] (Done (Some raw, Some inm, crimen)) →
     computeMetrics float_of_str raw inm = Ok df →
     ending (filter_listings u df) = Stopped →
     app float_of_str fs u = Script (calls (filter_listings u df)) Stopped ∧
     st_tabs main_tabs ∉ calls (filter_listings u df))
  ∧ sin_datos ∉ [sin_ciudad; sin_barrios_ciudad; sin_barrios].
Proof.
  split; [|split; [|split; [|split]]].
  - intros dc Hc Hdc He. by rewrite filter_listings_eq, Hc, Hdc, He.
  - intros dc nb Hc Hdc He Hnb Hout.
    rewrite filter_listings_eq, Hc, Hdc, He, Hnb. cbv zeta. by rewrite Hout.
  - intros nb Hc Hnb Hout.
    rewrite filter_listings_eq, Hc, Hnb. cbv zeta. by rewrite Hout.
  - intros float_of_str fs raw inm crimen Hl Hm Hs. split.
    + rewrite app_eq, Hl. cbn [calls ending]. by rewrite Hm, Hs.
    + revert Hs. rewrite filter_listings_eq. unfold widgets_city, widgets_sin_city.
      repeat case_match; simpl; try done; intros _ Hin;
        repeat (apply elem_of_cons in Hin as [Hin|Hin]; [discriminate Hin|]);
        by apply elem_of_nil in Hin.
  - unfold sin_datos, sin_ciudad, sin_barrios_ciudad, sin_barrios. intros Hin.
    repeat (apply elem_of_cons in Hin as [Hin|Hin]; [discriminate Hin|]).
    by apply elem_of_nil in Hin.
Qed.

(** ** The loader (C8) *)

(** C8 (amended): the loader is all or nothing, and a read failure is a read
    that raises.  Either the three reads return, and the loader hands on the
    three tables as read, whatever their columns, without a call to
    Streamlit; or one of them raises, and then the loader shows the error
    message with the text of the exception, shows the traceback, and hands on
    three [None]s, upon which the script shows its warning and stops. *)
Theorem load_data_atomic fs :
  (∃ df inm crimen,
     fs "data/Valencia_limpio.csv" "," = Returns df ∧
     fs "data/valencia_vivienda_limpio.csv" "," = Returns inm ∧
     fs "data/crimenValencia.csv" ";" = Returns crimen ∧
     load_data fs = Script [] (Done (Some df, Some inm, Some crimen)))
  ∨ (∃ e,
     (fs "data/Valencia_limpio.csv" "," = Raises e ∨
      fs "data/valencia_vivienda_limpio.csv" "," = Raises e ∨
      fs "data/crimenValencia.csv" ";" = Raises e) ∧
     let report := [st_error ("Error al cargar los datos: " +:+ exc_str e);
                    st_text (exc_traceback e)] in
     load_data fs = Script report (Done (None, None, None)) ∧
     ∀ float_of_str u,
       app float_of_str fs u = Script (report ++ [st_warning sin_datos]) Stopped).
Proof.
  unfold load_data, read_csv.
  destruct (fs "data/Valencia_limpio.csv" ",") as [df|e] eqn:E1.
  2:{ right. exists e. split; [by left|]. split; [done|].
      intros. rewrite app_eq. unfold load_data, read_csv. by rewrite E1. }
  destruct (fs "data/valencia_vivienda_limpio.csv" ",") as [inm|e] eqn:E2.
  2:{ right. exists e. split; [right; by left|]. split; [done|].
      intros. rewrite app_eq. unfold load_data, read_csv. by rewrite E1, E2. }
  destruct (fs "data/crimenValencia.csv" ";") as [crimen|e] eqn:E3.
  2:{ right. exists e. split; [right; by right|]. split; [done|].
      intros. rewrite app_eq. unfold load_data, read_csv. by rewrite E1, E2, E3. }
  left. by exists df, inm, crimen.
Qed.

(** * Further properties of the pipeline *)

(** ** The frame the derived-metrics block returns *)

Lemma wf_setitem df k c : wf df → col_len c = len df → wf (setitem df k c).
Proof. intros Hwf Hc. unfold wf, setitem. simpl. by apply map_Forall_insert_2. Qed.

(** X1: The frame the block returns: the rows and their labels are those of the
    input; every column other than price and the five derived ones is
    untouched; price and the estimated value are numeric and the five
    derived columns are there; on a numeric days_rented column the five
    derived columns are numeric; and every column still has one cell per
    row. *)
Theorem computeMetrics_frame float_of_str df inm df' :
  computeMetrics float_of_str df inm = Ok df' →
  index df' = index df ∧
  (∀ k, k ∉ "price" :: derived_columns → cols df' !! k = cols df !! k) ∧
  (∀ k, k ∈ ["price"; "estimated_property_value"] →
     ∃ xs, cols df' !! k = Some (NumCol xs)) ∧
  (∀ k, k ∈ derived_columns → is_Some (cols df' !! k)) ∧
  (∀ ds, cols df !! "days_rented" = Some (NumCol ds) →
     ∀ k, k ∈ derived_columns → ∃ xs, cols df' !! k = Some (NumCol xs)) ∧
  (wf df → wf df').
Proof.
  intros (p & c & ps & d & ds & Hp & Hc & Ha & Hd & Hn & ->)%computeMetrics_Ok_shape.
  split; [done|]. split; [|split; [|split; [|split]]].
  - intros k Hk. unfold setitem; simpl.
    rewrite !lookup_insert_ne; [done|..]; intros <-; apply Hk;
      unfold derived_columns; set_solver.
  - intros k Hk. unfold setitem; simpl.
    repeat (apply elem_of_cons in Hk as [->|Hk]);
      [..|by apply elem_of_nil in Hk];
      rewrite ?lookup_insert_eq; rewrite ?lookup_insert_ne by name_ne;
      rewrite ?lookup_insert_eq; eauto.
  - intros k Hk. unfold derived_columns in Hk. unfold setitem; simpl.
    repeat (apply elem_of_cons in Hk as [->|Hk]);
      [..|by apply elem_of_nil in Hk];
      rewrite ?lookup_insert_eq; rewrite ?lookup_insert_ne by name_ne;
      rewrite ?lookup_insert_eq; eauto.
  - intros ds' _ k Hk. unfold derived_columns in Hk. unfold setitem; simpl.
    repeat (apply elem_of_cons in Hk as [->|Hk]);
      [..|by apply elem_of_nil in Hk];
      rewrite ?lookup_insert_eq; rewrite ?lookup_insert_ne by name_ne;
      rewrite ?lookup_insert_eq; eauto.
  - intros Hwf.
    destruct (astype_float_Ok _ _ _ Ha) as (ps' & [= <-] & Hlp).
    pose proof (numeric_length _ _ Hn) as Hld.
    rewrite (Hwf _ _ Hc) in Hlp. rewrite (Hwf _ _ Hd) in Hld.
    unfold len in *.
    repeat apply wf_setitem; try done; unfold len; simpl;
      rewrite ?length_map, ?length_zip_with, ?length_map, ?length_zip_with,
        ?length_replicate; lia.
Qed.

(** ** Errors of the derived-metrics block *)

(** X2: A listing table without a days_rented column makes the block fail: once
    the price is coerced and the reference price computed, reading the column
    raises KeyError. *)
Theorem computeMetrics_sin_days float_of_str df inm c ps :
  cols df !! "price" = Some c →
  astype_float float_of_str c = Ok (NumCol ps) →
  cols df !! "days_rented" = None →
  computeMetrics float_of_str df inm =
    match precio_m2_valencia inm with
    | Ok _ => Err (KeyError "days_rented")
    | Err e => Err e
    end.
Proof.
  intros Hc Ha Hd. unfold computeMetrics.
  rewrite (has_column_true _ _ _ Hc), (getitem_Some _ _ _ Hc). cbn.
  rewrite Ha. cbn. destruct (precio_m2_valencia inm); cbn; [|done].
  rewrite getitem_setitem_eq. cbn.
  rewrite getitem_setitem_ne by name_ne. by rewrite (getitem_None _ _ Hd).
Qed.

(** X3: A price column read as text in which one string is not a number makes
    the block fail with ValueError at the coercion, before anything else is
    read. *)
Theorem computeMetrics_price_unparsable float_of_str df inm xs s :
  cols df !! "price" = Some (ObjCol xs) →
  Some s ∈ xs → float_of_str s = None →
  computeMetrics float_of_str df inm = Err ValueError.
Proof.
  intros Hc Hs Hf. unfold computeMetrics.
  rewrite (has_column_true _ _ _ Hc), (getitem_Some _ _ _ Hc). cbn.
  destruct (mapM _ xs) as [ys|] eqn:E; [|done]. exfalso.
  apply mapM_Some_1 in E.
  apply list_elem_of_lookup in Hs as [i Hi].
  destruct (Forall2_lookup_l _ _ _ _ _ E Hi) as (y & _ & Hy).
  simpl in Hy. congruence.
Qed.

(** ** Metrics and row selection commute *)

Lemma mask_filter_zip_with {A B C} (f : A → B → C) mask xs ys :
  mask_filter mask (zip_with f xs ys)
    = zip_with f (mask_filter mask xs) (mask_filter mask ys).
Proof.
  revert xs ys. induction mask as [|b mask IH]; intros xs ys; [done|].
  destruct xs as [|x xs], ys as [|y ys]; simpl; try done.
  - destruct b; simpl; by destruct (mask_filter mask xs).
  - destruct b; simpl; by rewrite IH.
Qed.

Lemma mask_filter_replicate {A B} mask (ix : list A) (v : B) :
  mask_filter mask (replicate (length ix) v)
    = replicate (length (mask_filter mask ix)) v.
Proof.
  revert ix. induction mask as [|b mask IH]; intros [|i ix]; simpl; try done.
  destruct b; simpl; by rewrite IH.
Qed.

Lemma select_rows_setitem mask df k c :
  select_rows mask (setitem df k c)
    = setitem (select_rows mask df) k (col_select mask c).
Proof. unfold select_rows, setitem. simpl. by rewrite fmap_insert. Qed.

Lemma computeMetrics_precio_err float_of_str df inm ps e :
  cols df !! "price" = Some (NumCol ps) →
  precio_m2_valencia inm = Err e →
  computeMetrics float_of_str df inm = Err e.
Proof.
  intros Hc Hp. unfold computeMetrics.
  rewrite (has_column_true _ _ _ Hc), (getitem_Some _ _ _ Hc). cbn.
  by rewrite Hp.
Qed.

(** X4: The derived values of a row do not depend on which other rows are in the
    table: on numeric price and days columns, computing the metrics of a
    selection of rows gives the selection of the metrics. *)
Theorem computeMetrics_select_rows float_of_str mask df inm ps ds :
  cols df !! "price" = Some (NumCol ps) →
  cols df !! "days_rented" = Some (NumCol ds) →
  computeMetrics float_of_str (select_rows mask df) inm =
    match computeMetrics float_of_str df inm with
    | Ok df' => Ok (select_rows mask df')
    | Err e => Err e
    end.
Proof.
  intros Hps Hds.
  assert (cols (select_rows mask df) !! "price"
            = Some (NumCol (mask_filter mask ps))) as Hps'
    by by rewrite cols_select_rows, Hps.
  assert (cols (select_rows mask df) !! "days_rented"
            = Some (NumCol (mask_filter mask ds))) as Hds'
    by by rewrite cols_select_rows, Hds.
  destruct (precio_m2_valencia inm) as [p|e] eqn:Hp.
  - rewrite (computeMetrics_numeric _ _ _ _ _ _ Hps' Hds' Hp).
    rewrite (computeMetrics_numeric _ _ _ _ _ _ Hps Hds Hp).
    cbv zeta. f_equal. rewrite !select_rows_setitem. simpl col_select.
    unfold len. simpl index.
    repeat first [ rewrite <- map_mask_filter
                 | rewrite mask_filter_zip_with
                 | rewrite mask_filter_replicate ].
    reflexivity.
  - rewrite (computeMetrics_precio_err _ _ _ _ _ Hps' Hp).
    by rewrite (computeMetrics_precio_err _ _ _ _ _ Hps Hp).
Qed.

(** ** What the filter does to the table *)

Lemma mask_filter_and_then {A} first later (xs : list A) :
  mask_filter later (mask_filter first xs)
    = mask_filter (mask_and_then first later) xs.
Proof.
  revert later xs. induction first as [|b first IH]; intros later xs.
  { simpl. by destruct later. }
  destruct xs as [|x xs]; simpl.
  { destruct b; [destruct later|]; simpl; by destruct later || done. }
  destruct b; simpl; [|apply IH].
  destruct later as [|c later]; simpl; [done|].
  destruct c; by rewrite IH.
Qed.

Lemma select_rows_and_then first later df :
  select_rows later (select_rows first df)
    = select_rows (mask_and_then first later) df.
Proof.
  unfold select_rows. simpl. f_equal; [apply mask_filter_and_then|].
  rewrite <- map_fmap_compose. apply map_fmap_ext. intros k c _. simpl.
  destruct c; simpl; f_equal; apply mask_filter_and_then.
Qed.

Lemma mask_filter_sublist {A} mask (xs : list A) :
  mask_filter mask xs `sublist_of` xs.
Proof.
  revert xs. induction mask as [|b mask IH]; intros [|x xs]; simpl;
    try apply sublist_nil_l.
  destruct b; [by apply sublist_skip | by apply sublist_cons].
Qed.

(** Whatever the filter hands on is a selection of rows of its input. *)
Lemma filter_listings_Done_mask u df df' :
  ending (filter_listings u df) = Done df' →
  ∃ mask, df' = select_rows mask df.
Proof.
  rewrite filter_listings_eq. destruct (has_column "city" df).
  - destruct (narrow_city _ df) as [dc|e] eqn:Hdc; [|done].
    destruct (empty dc); [done|].
    destruct (getitem dc "neighbourhood") as [nb|e]; [|done].
    cbv zeta. destruct (empty (select_rows _ dc)); [done|].
    simpl. intros [= <-].
    apply narrow_city_Ok_inv in Hdc as (cs & _ & ->).
    rewrite select_rows_and_then. eauto.
  - destruct (getitem df "neighbourhood") as [nb|e]; [|done].
    cbv zeta. destruct (empty (select_rows _ df)); [done|].
    simpl. intros [= <-]. eauto.
Qed.

(** X5: The filter only drops rows: the table it hands on is the input under
    one mask, so its row labels are a subsequence of the input's, it has no
    more rows, it has the same columns, and it still has one cell per row
    in every column. *)
Theorem filter_only_drops_rows u df df' :
  ending (filter_listings u df) = Done df' →
  (∃ mask, df' = select_rows mask df) ∧
  index df' `sublist_of` index df ∧
  (len df' ≤ len df)%nat ∧
  dom (cols df') = dom (cols df) ∧
  (wf df → wf df').
Proof.
  intros (mask & ->)%filter_listings_Done_mask.
  split; [eauto|]. split; [apply mask_filter_sublist|]. split.
  { apply sublist_length, mask_filter_sublist. }
  split; [simpl; apply dom_fmap_L | apply wf_select_rows].
Qed.

(** ** The default selection *)

(** A cell of a column that is not missing is in the universe of the column. *)
Lemma isin_cell_universe c v :
  v ∈ cells c → isna v = false → isin_cell (barrios_of c) v = true.
Proof.
  intros Hv Hna. destruct c as [xs|xs]; simpl in Hv;
    apply list_elem_of_fmap in Hv as (x & -> & Hx); simpl in *.
  - destruct (unique_covers PrimFloat.eqb (dropna_num xs) x) as (y & Hy & Hxy).
    { by apply eqb_refl_not_nan. }
    { by apply dropna_num_elem. }
    apply existsb_exists. exists (LNum y). split; [|by rewrite Hxy].
    apply list_elem_of_In, list_elem_of_fmap. exists y.
    split; [done | by apply sorted_by_elem].
  - destruct x as [s|]; [|done].
    apply existsb_exists. exists (LStr s). split; [|apply String.eqb_refl].
    apply list_elem_of_In, (barrios_str_elem xs). eauto.
Qed.

(** Against its own universe, a column passes exactly its cells that are
    not missing. *)
Lemma isin_universe c :
  isin c (barrios_of c) = map (λ v, negb (isna v)) (cells c).
Proof.
  unfold isin. apply map_ext_in. intros v Hv%list_elem_of_In.
  destruct (isna v) eqn:E; simpl.
  - apply isin_cell_missing; [apply barrios_no_nan | done].
  - by apply isin_cell_universe.
Qed.

(** X6: With the neighbourhood widget left at its default, the filter hands on
    exactly the rows (of the selected city, when there is a city column)
    whose neighbourhood is present: no other row is dropped. *)
Theorem default_selection_keeps_present u df df' :
  pick_barrios u = None →
  ending (filter_listings u df) = Done df' →
  ∃ dc nb,
    (if has_column "city" df
     then narrow_city (ciudad_name (pick_ciudad u)) df = Ok dc
     else dc = df) ∧
    cols dc !! "neighbourhood" = Some nb ∧
    df' = select_rows (map (λ v, negb (isna v)) (cells nb)) dc.
Proof.
  intros Hpick. rewrite filter_listings_eq, Hpick. simpl widget_value.
  destruct (has_column "city" df).
  - destruct (narrow_city _ df) as [dc|e] eqn:Hdc; [|done].
    destruct (empty dc); [done|].
    destruct (getitem dc "neighbourhood") as [nb|e] eqn:Hnb; [|done].
    cbv zeta. destruct (empty (select_rows _ dc)); [done|].
    simpl. intros [= <-]. exists dc, nb.
    split; [done|]. split; [by apply getitem_Ok|]. by rewrite isin_universe.
  - destruct (getitem df "neighbourhood") as [nb|e] eqn:Hnb; [|done].
    cbv zeta. destruct (empty (select_rows _ df)); [done|].
    simpl. intros [= <-]. exists df, nb.
    split; [done|]. split; [by apply getitem_Ok|]. by rewrite isin_universe.
Qed.

(** ** Errors of the filter *)

(** X7: A table without a neighbourhood column never passes the filter.  Without
    a city column, or with rows left for the selected city, reading the
    column raises KeyError before the neighbourhood widget is shown. *)
Theorem filter_sin_neighbourhood u df :
  cols df !! "neighbourhood" = None →
  (has_column "city" df = false →
     filter_listings u df
       = Script widgets_sin_city (Raised (KeyError "neighbourhood")))
  ∧ (∀ dc, has_column "city" df = true →
       narrow_city (ciudad_name (pick_ciudad u)) df = Ok dc →
       empty dc = false →
       filter_listings u df
         = Script widgets_city (Raised (KeyError "neighbourhood")))
  ∧ ∀ df', ending (filter_listings u df) ≠ Done df'.
Proof.
  intros Hnb. pose proof (getitem_None _ _ Hnb) as Hg.
  split; [|split].
  - intros Hc. by rewrite filter_listings_eq, Hc, Hg.
  - intros dc Hc Hdc He. rewrite filter_listings_eq, Hc, Hdc, He.
    apply narrow_city_Ok_inv in Hdc as (cs & _ & ->).
    rewrite (getitem_None "neighbourhood" (select_rows _ df)); [done|].
    by rewrite cols_select_rows, Hnb.
  - intros df'. rewrite filter_listings_eq. destruct (has_column "city" df).
    + destruct (narrow_city _ df) as [dc|e] eqn:Hdc; [|done].
      destruct (empty dc); [done|].
      apply narrow_city_Ok_inv in Hdc as (cs & _ & ->).
      rewrite (getitem_None "neighbourhood" (select_rows _ df)); [done|].
      by rewrite cols_select_rows, Hnb.
    + by rewrite Hg.
Qed.

(** X8: A city column of numbers makes the filter fail right after the city
    widget: the [.str] accessor raises AttributeError. *)
Theorem filter_city_numeric u df xs :
  cols df !! "city" = Some (NumCol xs) →
  filter_listings u df = Script widgets_city (Raised AttributeError).
Proof.
  intros Hc. rewrite filter_listings_eq, (has_column_true _ _ _ Hc).
  by rewrite narrow_city_eq, (getitem_Some _ _ _ Hc).
Qed.

(** ** The table the views receive *)

Lemma filter_listings_Done_facts u df df' :
  ending (filter_listings u df) = Done df' →
  empty df' = false ∧ is_Some (cols df' !! "neighbourhood").
Proof.
  rewrite filter_listings_eq. destruct (has_column "city" df).
  - destruct (narrow_city _ df) as [dc|e]; [|done].
    destruct (empty dc); [done|].
    destruct (getitem dc "neighbourhood") as [nb|e] eqn:Hnb; [|done].
    cbv zeta. destruct (empty (select_rows _ dc)) eqn:He; [done|].
    simpl. intros [= <-]. split; [done|].
    rewrite cols_select_rows, (getitem_Ok _ _ _ Hnb). by eexists.
  - destruct (getitem df "neighbourhood") as [nb|e] eqn:Hnb; [|done].
    cbv zeta. destruct (empty (select_rows _ df)) eqn:He; [done|].
    simpl. intros [= <-]. split; [done|].
    rewrite cols_select_rows, (getitem_Ok _ _ _ Hnb). by eexists.
Qed.

Lemma load_data_listings fs df inm crimen :
  ending (load_data fs) = Done (Some df, inm, crimen) →
  fs "data/Valencia_limpio.csv" "," = Returns df.
Proof.
  unfold load_data, read_csv.
  destruct (fs "data/Valencia_limpio.csv" ",") as [a|e]; cbn; [|done].
  destruct (fs "data/valencia_vivienda_limpio.csv" ",") as [b|e]; cbn; [|done].
  destruct (fs "data/crimenValencia.csv" ";") as [c|e]; cbn; [|done].
  by intros [= ->].
Qed.

Lemma computeMetrics_columns float_of_str df inm df' :
  computeMetrics float_of_str df inm = Ok df' →
  (∀ k, k ∈ "price" :: derived_columns → ∃ xs, cols df' !! k = Some (NumCol xs)) ∧
  is_Some (cols df' !! "days_rented") ∧
  (wf df → wf df').
Proof.
  intros (p & c & ps & d & ds & Hp & Hc & Ha & Hd & Hn & ->)%computeMetrics_Ok_shape.
  split; [|split].
  - intros k Hk. unfold derived_columns in Hk. unfold setitem; simpl.
    repeat (apply elem_of_cons in Hk as [->|Hk]);
      [..|by apply elem_of_nil in Hk];
      rewrite ?lookup_insert_eq; rewrite ?lookup_insert_ne by name_ne;
      rewrite ?lookup_insert_eq; eauto.
  - unfold setitem; simpl. rewrite !lookup_insert_ne by name_ne.
    rewrite Hd. by eexists.
  - intros Hwf.
    destruct (astype_float_Ok _ _ _ Ha) as (ps' & [= <-] & Hlp).
    pose proof (numeric_length _ _ Hn) as Hld.
    rewrite (Hwf _ _ Hc) in Hlp. rewrite (Hwf _ _ Hd) in Hld.
    unfold len in *.
    repeat apply wf_setitem; try done; unfold len; simpl;
      rewrite ?length_map, ?length_zip_with, ?length_map, ?length_zip_with,
        ?length_replicate; lia.
Qed.

(** X9: Whenever the script reaches the views, the table they read is not empty
    (so every [if not df.empty] test of the views and of the export
    succeeds), it has a numeric price column and the five derived columns,
    numeric too, and the days_rented and neighbourhood columns; and if the
    listing file was read as a table with one cell per row in every column,
    so is this one. *)
Theorem app_reaches_views float_of_str fs u df :
  ending (app float_of_str fs u) = Done df →
  empty df = false ∧
  (∀ k, k ∈ "price" :: derived_columns → ∃ xs, cols df !! k = Some (NumCol xs)) ∧
  is_Some (cols df !! "days_rented") ∧
  is_Some (cols df !! "neighbourhood") ∧
  (∀ raw, fs "data/Valencia_limpio.csv" "," = Returns raw → wf raw → wf df).
Proof.
  rewrite app_eq.
  destruct (ending (load_data fs)) as [[[[a|] [b|]] c]| |e] eqn:Hl; try done.
  destruct (computeMetrics float_of_str a b) as [d|e] eqn:Hm; [|done].
  destruct (ending (filter_listings u d)) as [df'| |e] eqn:Hf; try done.
  simpl. intros [= ->].
  destruct (computeMetrics_columns _ _ _ _ Hm) as (Hnum & Hdays & Hwf).
  destruct (filter_listings_Done_facts _ _ _ Hf) as (He & Hnb).
  destruct (filter_listings_Done_mask _ _ _ Hf) as (mask & ->).
  split; [done|]. split; [|split; [|split; [done|]]].
  - intros k Hk. destruct (Hnum k Hk) as (xs & Hxs).
    exists (mask_filter mask xs). by rewrite cols_select_rows, Hxs.
  - destruct Hdays as (x & Hx). rewrite cols_select_rows, Hx. by eexists.
  - intros raw Hraw Hwfraw. apply load_data_listings in Hl.
    rewrite Hl in Hraw. injection Hraw as <-.
    by apply wf_select_rows, Hwf.
Qed.

(** ** The Valencia test of the advanced view *)

Lemma unique_from_replicate_seen (v : string) seen n :
  v ∈ seen → unique_from String.eqb seen (replicate n v) = [].
Proof.
  intros Hv. induction n as [|n IH]; simpl; [done|].
  replace (existsb (String.eqb v) seen) with true; [done|].
  symmetry. apply existsb_exists. exists v.
  split; [by apply list_elem_of_In | apply String.eqb_refl].
Qed.

Lemma dropna_str_replicate (v : string) n :
  dropna_str (replicate n (Some v)) = replicate n v.
Proof.
  unfold dropna_str. induction n as [|n IH]; [done|].
  change (v :: omap id (replicate n (Some v)) = v :: replicate n v).
  by rewrite IH.
Qed.

Lemma nunique_replicate (v : string) n :
  nunique_str (replicate (S n) (Some v)) = 1%nat.
Proof.
  unfold nunique_str, unique. rewrite dropna_str_replicate. simpl.
  rewrite unique_from_replicate_seen; [done | by left].
Qed.

Lemma city_test_lower v c :
  city_test v c = true → option_map lower c = Some v.
Proof.
  unfold city_test. destruct (option_map lower c) as [s|]; [|done].
  by intros ->%bool_decide_eq_true.
Qed.

Lemma Forall_eq_replicate {A} (x : A) l :
  Forall (λ y, y = x) l → l = replicate (length l) x.
Proof. induction 1 as [|y l -> _ IH]; simpl; [done | by rewrite <- IH]. Qed.

(** X10: After the filter, with a city column, the test of line 217 holds exactly
    when the city selected is Valencia: every row left spells the one
    selected city, case apart. *)
Theorem es_valencia_after_filter u df df' :
  wf df →
  has_column "city" df = true →
  ending (filter_listings u df) = Done df' →
  es_valencia df' = Value (bool_decide (pick_ciudad u = Valencia)).
Proof.
  intros Hwf Hcity Hf.
  destruct (filter_listings_Done_facts _ _ _ Hf) as (He & _).
  revert Hf. rewrite filter_listings_eq, Hcity.
  destruct (narrow_city _ df) as [dc|e] eqn:Hdc; [|done].
  destruct (empty dc); [done|].
  destruct (getitem dc "neighbourhood") as [nb|e]; [|done].
  cbv zeta. destruct (empty (select_rows _ dc)); [done|].
  simpl. intros [= <-].
  apply narrow_city_Ok_inv in Hdc as (cs & Hcs & ->).
  set (v := lower (ciudad_name (pick_ciudad u))) in *.
  set (m1 := map (city_test v) cs) in *.
  set (m2 := isin nb _) in *.
  set (out := select_rows m2 (select_rows m1 df)) in *.
  assert (getitem out "city" = Ok (ObjCol (mask_filter m2 (mask_filter m1 cs))))
    as Hout by exact (getitem_select_rows _ _ _ _ (getitem_select_rows m1 _ _ _ Hcs)).
  assert (wf out) as Hwf' by by do 2 apply wf_select_rows.
  pose proof (Hwf' _ _ (getitem_Ok _ _ _ Hout)) as Hlen. simpl in Hlen.
  assert (len out ≠ 0%nat) as Hne.
  { apply orb_false_elim in He as [He _]. by apply bool_decide_eq_false in He. }
  assert (map (option_map lower) (mask_filter m2 (mask_filter m1 cs))
          = replicate (len out) (Some v)) as Hlow.
  { rewrite <- Hlen, <- (length_map (option_map lower)).
    apply Forall_eq_replicate, Forall_map, mask_filter_Forall.
    unfold m1. rewrite mask_filter_map. apply List.Forall_forall.
    intros c [_ Hc]%List.filter_In. by apply city_test_lower. }
  assert (has_column "city" out = true) as Hcity'
    by (unfold out; by rewrite !has_column_select_rows).
  unfold es_valencia. rewrite Hcity'.
  unfold city_lower. rewrite Hout. cbn. rewrite Hlow.
  destruct (len out) as [|n]; [done|]. rewrite nunique_replicate. simpl.
  f_equal. unfold v. by destruct (pick_ciudad u).
Qed.

(** ** Rows selected by a test on one column *)

Lemma mask_filter_test_zip {A B} (p : B → bool) (ix : list A) (xs : list B) :
  mask_filter (map p xs) (zip ix xs) = List.filter (λ iv, p iv.2) (zip ix xs).
Proof.
  revert ix. induction xs as [|x xs IH]; intros [|i ix]; simpl; try done.
  destruct (p x); by rewrite IH.
Qed.

Lemma is_nan_Prim2SF x : PrimFloat.is_nan x = true → Prim2SF x = S754_nan.
Proof.
  unfold PrimFloat.is_nan. intros H%negb_true_iff.
  rewrite FloatAxioms.eqb_spec in H.
  destruct (Prim2SF x) eqn:E; try done; by rewrite SFeqb_refl_not_nan in H.
Qed.

Lemma ltb_nan_r k x : PrimFloat.is_nan x = true → (k <? x) = false.
Proof.
  intros H%is_nan_Prim2SF. rewrite ltb_spec, H.
  unfold SFltb, SFcompare. by destruct (Prim2SF k).
Qed.

(** ** Active listings (lines 190-191) *)

(** X11: The active listings are exactly the rows rented more than 30 days, in
    order and with their labels; a row whose days are missing is never
    among them. *)
Theorem activos_rows df ds :
  cols df !! "days_rented" = Some (NumCol ds) →
  ∃ act ds',
    activos df = Ok (Some act) ∧
    cols act !! "days_rented" = Some (NumCol ds') ∧
    zip (index act) ds' = List.filter (λ iv, 30 <? iv.2) (zip (index df) ds) ∧
    Forall (λ x, (30 <? x) = true ∧ PrimFloat.is_nan x = false) ds'.
Proof.
  intros Hd. set (mask := map (λ x, 30 <? x) ds).
  exists (select_rows mask df), (mask_filter mask ds). split; [|split; [|split]].
  - unfold activos. by rewrite (has_column_true _ _ _ Hd), (getitem_Some _ _ _ Hd).
  - by rewrite cols_select_rows, Hd.
  - simpl. rewrite zip_mask_filter. apply mask_filter_test_zip.
  - unfold mask. rewrite mask_filter_map. apply List.Forall_forall.
    intros x [_ Hx]%List.filter_In. split; [done|].
    destruct (PrimFloat.is_nan x) eqn:E; [|done].
    by rewrite (ltb_nan_r _ _ E) in Hx.
Qed.

(** ** The crime table without its totals (line 477) *)

Lemma ne_scalar_test xs v :
  ne_scalar (ObjCol xs) v = map (λ c, negb (bool_decide (c = Some v))) xs.
Proof.
  simpl. apply map_ext. intros [s|]; [|done]. f_equal.
  destruct (String.eqb_spec s v) as [->|Hne].
  - by rewrite bool_decide_eq_true_2.
  - rewrite bool_decide_eq_false_2; [done|]. by intros [= ->].
Qed.

(** X12: The crime table the charts read holds no 'Total' row and every other
    row of the table loaded, in order and with its label, the rows without a
    category included; filtering it again changes nothing. *)
Theorem delincuencia_sin_total d xs :
  cols d !! "Parámetro" = Some (ObjCol xs) →
  ∃ d' xs',
    df_delincuencia_filtrado d = Ok d' ∧
    cols d' !! "Parámetro" = Some (ObjCol xs') ∧
    (Some "Total" ∉ xs') ∧
    zip (index d') xs'
      = List.filter (λ iv, negb (bool_decide (iv.2 = Some "Total")))
          (zip (index d) xs) ∧
    (wf d → df_delincuencia_filtrado d' = Ok d').
Proof.
  intros Hp. set (p := λ c : option string, negb (bool_decide (c = Some "Total"))).
  exists (select_rows (map p xs) d), (mask_filter (map p xs) xs).
  assert (∀ ys, Forall (λ c, p c = true) ys → Some "Total" ∉ ys) as Hno.
  { intros ys Hys Hin%list_elem_of_In. rewrite List.Forall_forall in Hys.
    apply Hys in Hin. unfold p in Hin. by rewrite bool_decide_eq_true_2 in Hin. }
  assert (Forall (λ c, p c = true) (mask_filter (map p xs) xs)) as Hall.
  { rewrite mask_filter_map. apply List.Forall_forall.
    by intros c [_ ?]%List.filter_In. }
  assert (cols (select_rows (map p xs) d) !! "Parámetro"
          = Some (ObjCol (mask_filter (map p xs) xs))) as Hp'
    by by rewrite cols_select_rows, Hp.
  split; [|split; [done|split; [by apply Hno|split]]].
  - unfold df_delincuencia_filtrado. rewrite (getitem_Some _ _ _ Hp). cbn.
    do 2 f_equal. exact (ne_scalar_test xs "Total").
  - simpl. rewrite zip_mask_filter. apply (mask_filter_test_zip p).
  - intros Hwf. unfold df_delincuencia_filtrado.
    rewrite (getitem_Some _ _ _ Hp'). cbn. f_equal.
    assert (wf (select_rows (map p xs) d)) as Hwf'
      by by apply wf_select_rows.
    change (select_rows (ne_scalar (ObjCol (mask_filter (map p xs) xs)) "Total")
              (select_rows (map p xs) d) = select_rows (map p xs) d).
    rewrite ne_scalar_test. fold p.
    apply select_rows_true; [done|by apply Forall_map|].
    rewrite length_map. apply (Hwf' _ _ Hp').
Qed.

(** ** The fifteen most listed neighbourhoods (lines 370-371) *)

Lemma length_sorted_by {A} (leb : A → A → bool) l :
  length (sorted_by leb l) = length l.
Proof. apply Permutation_length, sorted_by_perm. Qed.

Lemma length_label_counts c : length (label_counts c) = length (barrios_of c).
Proof.
  destruct c; simpl; by rewrite !length_map, ?length_fmap, length_sorted_by.
Qed.

(** Every cell that is not missing is one of the values counted. *)
Lemma isin_cell_label_counts c v :
  v ∈ cells c → isna v = false →
  ∃ k n, (k, n) ∈ label_counts c ∧ isin_cell [k] v = true.
Proof.
  intros Hv Hna. destruct c as [xs|xs]; simpl in Hv;
    apply list_elem_of_fmap in Hv as (x & -> & Hx); simpl in *.
  - destruct (unique_covers PrimFloat.eqb (dropna_num xs) x) as (y & Hy & Hxy).
    { by apply eqb_refl_not_nan. }
    { by apply dropna_num_elem. }
    eexists (LNum y), _. split; [|simpl; by rewrite Hxy].
    apply list_elem_of_In, in_map_iff. exists y.
    split; [done | by apply list_elem_of_In].
  - destruct x as [s|]; [|done].
    eexists (LStr s), _. split; [|simpl; by rewrite String.eqb_refl].
    apply list_elem_of_In, in_map_iff. exists s. split; [done|].
    apply list_elem_of_In, (unique_elem _ String.eqb_eq), dropna_str_elem, Hx.
Qed.

Lemma isin_cell_elem k values v :
  k ∈ values → isin_cell [k] v = true → isin_cell values v = true.
Proof.
  intros Hk. destruct v as [x|[s|]]; simpl; rewrite !orb_false_r; intros H;
    apply existsb_exists; exists k; (split; [by apply list_elem_of_In | done]).
Qed.

(** X13: When the table has at most 15 neighbourhoods and none is missing, the
    box plots show every row, however pandas orders equal counts. *)
Theorem df_top_all by_count df nb :
  (∀ l, by_count l ≡ₚ l) →
  wf df →
  cols df !! "neighbourhood" = Some nb →
  no_missing nb →
  (length (barrios_of nb) ≤ 15)%nat →
  df_top by_count df = Ok df.
Proof.
  intros Hperm Hwf Hnb Hnm Hlen. unfold df_top.
  rewrite (getitem_Some _ _ _ Hnb). cbn. f_equal.
  apply select_rows_true; [done| |by rewrite length_isin; apply (Hwf _ _ Hnb)].
  unfold isin, top_barrios. apply Forall_map, List.Forall_forall.
  intros v Hv%list_elem_of_In. unfold no_missing in Hnm.
  rewrite List.Forall_forall in Hnm.
  pose proof (Hnm v (proj1 (list_elem_of_In _ _) Hv)) as Hna.
  destruct (isin_cell_label_counts nb v Hv Hna) as (k & n & Hk & Hkv).
  apply (isin_cell_elem k); [|done].
  rewrite take_ge.
  - apply list_elem_of_fmap. exists (k, n). split; [done|]. by rewrite Hperm.
  - rewrite (Permutation_length (Hperm _)), length_label_counts. lia.
Qed.

(** ** Listings per neighbourhood (line 174) *)

Lemma sum_indicator (t : string) keys :
  NoDup keys → t ∈ keys →
  sum_list (map (λ s, if bool_decide (s = t) then 1%nat else 0%nat) keys) = 1%nat.
Proof.
  induction 1 as [|k keys Hk _ IH]; [by intros ?%elem_of_nil|].
  simpl. intros [->|Hin]%elem_of_cons.
  - rewrite bool_decide_eq_true_2 by done.
    replace (sum_list _) with 0%nat; [done|]. symmetry.
    clear IH. induction keys as [|k' keys IH]; [done|]. simpl.
    rewrite bool_decide_eq_false_2; [|intros ->; apply Hk; by left].
    apply IH. intros Hin. apply Hk. by right.
  - rewrite bool_decide_eq_false_2; [by apply IH|].
    intros ->. by apply Hk.
Qed.

Lemma sum_list_map_add {A} (f g : A → nat) l :
  sum_list (map (λ x, f x + g x)%nat l)
    = (sum_list (map f l) + sum_list (map g l))%nat.
Proof. induction l as [|x l IH]; simpl; [done | rewrite IH; lia]. Qed.

(** Counting the cells of each name, over names that are pairwise different
    and include every name of the column, counts every present cell once. *)
Lemma sum_counts_by_name (ns : list (option string)) keys :
  NoDup keys → (∀ t, Some t ∈ ns → t ∈ keys) →
  sum_list (map (λ s, length (List.filter (λ c, bool_decide (c = Some s)) ns)) keys)
    = length (dropna_str ns).
Proof.
  intros Hnd. induction ns as [|c ns IH]; intros Hcov.
  { simpl. clear Hnd Hcov. induction keys as [|k keys IH]; simpl; auto. }
  assert (∀ t, Some t ∈ ns → t ∈ keys) as Hcov' by (intros; apply Hcov; by right).
  specialize (IH Hcov'). destruct c as [t|].
  - change (dropna_str (Some t :: ns)) with (t :: dropna_str ns). simpl length.
    transitivity
      (sum_list (map (λ s, if bool_decide (s = t) then 1 else 0) keys)
       + sum_list (map (λ s, length
                          (List.filter (λ c, bool_decide (c = Some s)) ns)) keys))%nat.
    2:{ rewrite IH, (sum_indicator t keys Hnd); [done|]. apply Hcov. by left. }
    rewrite <- sum_list_map_add. f_equal. apply map_ext. intros s. simpl.
    destruct (decide (s = t)) as [->|Hne].
    + by rewrite !bool_decide_eq_true_2.
    + rewrite !bool_decide_eq_false_2; [done|done|]. by intros [= ->].
  - change (dropna_str (None :: ns)) with (dropna_str ns).
    rewrite <- IH. f_equal.
Qed.

Lemma count_rows_of_name s (ns : list (option string)) (vs : list cell) :
  length vs = length ns → Forall (λ v, isna v = false) vs →
  length (List.filter (λ kv, isin_cell [LStr s] kv.1 && negb (isna kv.2))
            (zip (map CStr ns) vs))
    = length (List.filter (λ c, bool_decide (c = Some s)) ns).
Proof.
  revert vs. induction ns as [|c ns IH]; intros [|v vs] Hl Hv; simpl in *;
    try done.
  apply Forall_cons in Hv as [Hna Hv].
  assert (length vs = length ns) as Hl' by lia.
  specialize (IH vs Hl' Hv). rewrite Hna. simpl.
  destruct c as [t|]; simpl.
  - rewrite orb_false_r, andb_true_r.
    destruct (String.eqb_spec t s) as [->|Hne].
    + rewrite bool_decide_eq_true_2 by done. simpl. by rewrite IH.
    + rewrite bool_decide_eq_false_2; [done|]. by intros [= ->].
  - exact IH.
Qed.

(** X14: The listings-per-neighbourhood table has one line for each name the
    neighbourhood widget would offer, in the same order, and when every
    listing has an id its counts add up to the number of listings whose
    neighbourhood is present. *)
Theorem competencia_total df ns ids :
  wf df →
  cols df !! "neighbourhood" = Some (ObjCol ns) →
  cols df !! "id" = Some ids →
  no_missing ids →
  ∃ comp,
    competencia_por_barrio df = Ok comp ∧
    comp.*1 = barrios_of (ObjCol ns) ∧
    sum_list comp.*2 = length (dropna_str ns).
Proof.
  intros Hwf Hnb Hid Hna. eexists. split; [|split].
  - unfold competencia_por_barrio, groupby_count.
    by rewrite (getitem_Some _ _ _ Hnb), (getitem_Some _ _ _ Hid).
  - rewrite <- list_fmap_compose. simpl. by rewrite list_fmap_id.
  - rewrite <- list_fmap_compose.
    destruct (barrios_universe ns) as (names & Hu & _ & Hnd & Hcov).
    rewrite Hu, <- list_fmap_compose.
    rewrite <- (sum_counts_by_name ns names Hnd) by (intros t; apply Hcov).
    f_equal. apply list_fmap_ext. intros _ s _. simpl.
    apply count_rows_of_name; [|done].
    rewrite length_cells. rewrite (Hwf _ _ Hid). symmetry. apply (Hwf _ _ Hnb).
Qed.

(** ** Picking an offered neighbourhood *)

Lemma mask_filter_nonempty {A} mask (xs : list A) :
  length mask = length xs → true ∈ mask → mask_filter mask xs ≠ [].
Proof.
  revert xs. induction mask as [|b mask IH]; intros [|x xs] Hl Hin; simpl in *;
    try done.
  { by apply elem_of_nil in Hin. }
  destruct b; [done|]. apply IH; [lia|].
  by apply elem_of_cons in Hin as [?|?].
Qed.

Lemma isin_has_true nb values k :
  k ∈ barrios_of nb → k ∈ values → true ∈ isin nb values.
Proof.
  intros Hk Hv. unfold isin. apply list_elem_of_In, in_map_iff.
  destruct nb as [xs|xs].
  - apply barrios_num_elem in Hk as (x & -> & Hx & Hna).
    exists (CNum x). split; [|by apply in_map, list_elem_of_In].
    simpl. apply existsb_exists. exists (LNum x).
    split; [by apply list_elem_of_In|]. by rewrite (eqb_refl_not_nan _ Hna).
  - apply barrios_str_elem in Hk as (s & -> & Hs).
    exists (CStr (Some s)). split; [|by apply in_map, list_elem_of_In].
    simpl. apply existsb_exists. exists (LStr s).
    split; [by apply list_elem_of_In | apply String.eqb_refl].
Qed.

Lemma select_isin_not_empty dc nb values k :
  wf dc → getitem dc "neighbourhood" = Ok nb →
  k ∈ barrios_of nb → k ∈ values →
  empty (select_rows (isin nb values) dc) = false.
Proof.
  intros Hwf Hnb%getitem_Ok Hk Hv.
  rewrite (empty_select_rows _ _ _ _ Hnb). apply bool_decide_eq_false.
  unfold len. simpl. intros H%length_zero_iff_nil. revert H.
  apply mask_filter_nonempty; [|by apply (isin_has_true _ _ k)].
  rewrite length_isin. apply (Hwf _ _ Hnb).
Qed.

Ltac skip_call H :=
  apply elem_of_cons in H as [H|H]; [discriminate H|].

Ltac no_such_call :=
  let H := fresh in
  simpl; intros H; repeat skip_call H; by apply elem_of_nil in H.

(** X15: Once the neighbourhood widget is shown, a selection that holds one of
    the names it offers always passes: the warning for an empty
    neighbourhood selection cannot appear, and the table is handed on. *)
Theorem offered_pick_passes u df offered k :
  wf df →
  st_sidebar_multiselect "Selecciona barrios" offered offered
    ∈ calls (filter_listings u df) →
  k ∈ offered →
  k ∈ widget_value (pick_barrios u) offered →
  ∃ df', ending (filter_listings u df) = Done df'.
Proof.
  intros Hwf Hcall Hk Hpick. revert Hcall. rewrite filter_listings_eq.
  unfold widgets_city, widgets_sin_city, barrios_widget.
  destruct (has_column "city" df).
  - destruct (narrow_city _ df) as [dc|e] eqn:Hdc; [|by no_such_call].
    assert (wf dc) as Hwfdc.
    { apply narrow_city_Ok_inv in Hdc as (cs & _ & ->). by apply wf_select_rows. }
    destruct (empty dc); [by no_such_call|].
    destruct (getitem dc "neighbourhood") as [nb|e] eqn:Hnb; [|by no_such_call].
    cbv zeta. destruct (empty (select_rows _ dc)) eqn:He; [|by eexists].
    simpl. intros Hin. do 2 skip_call Hin.
    apply elem_of_cons in Hin as [Hin|Hin]; [|revert Hin; by no_such_call].
    injection Hin as -> _.
    by rewrite (select_isin_not_empty dc nb _ k Hwfdc Hnb Hk Hpick) in He.
  - destruct (getitem df "neighbourhood") as [nb|e] eqn:Hnb; [|by no_such_call].
    cbv zeta. destruct (empty (select_rows _ df)) eqn:He; [|by eexists].
    simpl. intros Hin. do 2 skip_call Hin.
    apply elem_of_cons in Hin as [Hin|Hin]; [|revert Hin; by no_such_call].
    injection Hin as -> _.
    by rewrite (select_isin_not_empty df nb _ k Hwf Hnb Hk Hpick) in He.
Qed.
End Facts.

(** * The properties on the sample tables *)

#[local] Existing Instance left_to_right.
#[local] Set Warnings "-inexact-float".

(** C1 as stated does not hold of the table the block builds.  In binary64
    the two sides differ for one listing at 10 a night rented 90 days, with
    a reference price of 2500: the block stores (900 - 3000) / 175000 * 100,
    which is not 900 / 175000 * 100 minus 3000 / 175000 * 100. *)
Lemma net_roi_identity_fails : ¬ net_roi_identity.
Proof.
  intros H.
  pose proof (computeMetrics_numeric no_parse (listing_russafa 10 90)
                (vivienda [2500]) [10] [90] 2500 eq_refl eq_refl eq_refl) as E.
  specialize (H left_to_right _ _ _ _ 0%nat (900 / 175000 * 100)
                ((900 - 3000) / 175000 * 100) 175000 E eq_refl eq_refl eq_refl).
  revert H. apply float_neq. vm_compute. discriminate.
Qed.

Lemma net_roi_cells_witness :
  (∃ income, cell_num listings_demo_metrics "annual_income" 3 = Some income ∧
     3600 / 175000 * 100 = pct income 175000 ∧
     (3600 - 3000) / 175000 * 100 = pct (net_annual_income income) 175000)
  ∧ ∀ a v : Q, ¬ (v == 0)%Q →
      (pct (net_annual_income a) v == pct a v - pct gastos_anuales v)%Q.
Proof.
  apply (net_roi_cells no_parse listings_demo (vivienda [2500])
           listings_demo_metrics 3); reflexivity.
Defined.

Lemma scenario_russafa_witness :
  ∃ df', computeMetrics no_parse (listing_russafa 50 100)
           (vivienda [2000; 3000]) = Ok df' ∧
    index df' = [0%nat] ∧
    cell_num df' "estimated_property_value" 0 = Some 175000 ∧
    cell_num df' "annual_income" 0 = Some 5000 ∧
    cell_num df' "net_annual_income" 0 = Some 2000 ∧
    (∃ gross, cell_num df' "ROI (%)" 0 = Some gross ∧
              (abs (gross - 2.857) <? 0.0005) = true) ∧
    (∃ net, cell_num df' "Net ROI (%)" 0 = Some net ∧
            (abs (net - 1.143) <? 0.0005) = true).
Proof.
  apply (scenario_russafa no_parse (vivienda [2000; 3000]) [2000; 3000]);
    reflexivity.
Defined.

Lemma estimated_property_value_broadcast_witness :
  ∃ p, precio_m2_valencia (vivienda [2000; 3000]) = Ok p ∧
    ∀ i, (i < len listings_demo_metrics)%nat →
      cell_num listings_demo_metrics "estimated_property_value" i
        = Some (p * 70).
Proof.
  apply (estimated_property_value_broadcast no_parse
           listings_demo (vivienda [2000; 3000])).
  reflexivity.
Defined.


(** The order shows in the sum.  Ten cells of 0.1 have mean 0.1 in numpy's
    order and 0.09999999999999999 when added one after the other; the ten
    cells 1e16, eight times 1 and -1e16 have mean 0.8 in numpy's order and 0
    when added one after the other. *)
Lemma mean_of_ten_tenths :
  mean_skipna (order := numpy_pairwise) (replicate 10 0.1) = 0.1 ∧
  mean_skipna (order := left_to_right) (replicate 10 0.1)
    = 0.09999999999999999.
Proof. split; reflexivity. Qed.

Lemma mean_with_cancellation :
  mean_skipna (order := numpy_pairwise) ([1e16] ++ replicate 8 1 ++ [-1e16])
    = 0.8 ∧
  mean_skipna (order := left_to_right) ([1e16] ++ replicate 8 1 ++ [-1e16])
    = 0.
Proof. split; reflexivity. Qed.

Lemma computeMetrics_sin_price_witness :
  computeMetrics no_parse listing_sin_price (vivienda [2500])
    = Err (KeyError "price").
Proof.
  apply (computeMetrics_sin_price no_parse listing_sin_price (vivienda [2500])).
  reflexivity.
Defined.

(** C8 as stated does not hold: the loader checks no column.  A listing
    file that is read as a table without a price column is handed on as
    available, with no call to Streamlit; the script then fails in the
    derived-metrics block, on KeyError, instead of halting on the warning. *)
Lemma load_data_schema_mismatch : ¬ load_data_atomic_in_failure.
Proof.
  intros H. destruct (H storage_sin_price) as (msg & trace & E).
  - right. exists listing_sin_price, "price". split; [done|]. split; [|done].
    unfold listings_schema. set_solver.
  - vm_compute in E. discriminate E.
Qed.

Lemma app_schema_mismatch :
  app no_parse storage_sin_price (User Valencia None)
    = Script [] (Raised (KeyError "price")).
Proof. vm_compute. reflexivity. Qed.

Lemma filter_idempotent_witness :
  ending (filter_listings (User Valencia None) listings_demo_valencia)
    = Done listings_demo_valencia.
Proof.
  apply (filter_idempotent (User Valencia None) listings_demo).
  - exact wf_listings_demo.
  - vm_compute. reflexivity.
Defined.

Lemma missing_neighbourhood_excluded_witness :
  ∃ nb', cols listings_demo_valencia !! "neighbourhood" = Some nb' ∧
    no_missing nb' ∧
    ∀ i v, (i, v) ∈ labelled listings_demo_valencia nb' →
      (i, v) ∈ labelled listings_demo (ObjCol demo_barrios) ∧ isna v = false.
Proof.
  apply (missing_neighbourhood_excluded (User Valencia None) listings_demo).
  - intros chosen H. discriminate H.
  - reflexivity.
  - vm_compute. reflexivity.
Defined.

Lemma filter_steps_witness :
  universe_of [Some "Russafa"; None; Some "Benimaclet"]
    [LStr "Benimaclet"; LStr "Russafa"] ∧
  filter_listings (User Valencia None) listings_demo =
    Script (widgets_city ++
            [st_sidebar_multiselect "Selecciona barrios"
               [LStr "Benimaclet"; LStr "Russafa"]
               [LStr "Benimaclet"; LStr "Russafa"]])
      (Done listings_demo_valencia).
Proof.
  assert (∀ chosen, pick_barrios (User Valencia None) = Some chosen →
            Forall (λ k, label_is_nan k = false) chosen) as Hpick
    by (intros chosen H; discriminate H).
  destruct (proj1 (filter_steps (User Valencia None) listings_demo demo_barrios
                     Hpick eq_refl)
              [Some "Valencia"; Some "VALENCIA"; Some "Madrid"; Some "valencia";
               None] eq_refl) as [HU Hrun].
  split; [exact HU|].
  rewrite Hrun; [vm_compute; reflexivity | vm_compute; discriminate].
Defined.

Lemma no_matching_data_witness :
  filter_listings (User Barcelona None) listings_demo
    = Script (widgets_city ++ [st_warning sin_ciudad]) Stopped.
Proof.
  apply (proj1 (no_matching_data (User Barcelona None) listings_demo)
           (select_rows [false; false; false; false; false] listings_demo));
    vm_compute; reflexivity.
Defined.

Lemma computeMetrics_frame_witness :
  index listings_demo_metrics = index listings_demo ∧
  (∀ k, k ∉ "price" :: derived_columns →
     cols listings_demo_metrics !! k = cols listings_demo !! k) ∧
  (∀ k, k ∈ ["price"; "estimated_property_value"] →
     ∃ xs, cols listings_demo_metrics !! k = Some (NumCol xs)) ∧
  (∀ k, k ∈ derived_columns → is_Some (cols listings_demo_metrics !! k)) ∧
  (∀ ds, cols listings_demo !! "days_rented" = Some (NumCol ds) →
     ∀ k, k ∈ derived_columns →
       ∃ xs, cols listings_demo_metrics !! k = Some (NumCol xs)) ∧
  (wf listings_demo → wf listings_demo_metrics).
Proof.
  apply (computeMetrics_frame no_parse listings_demo (vivienda [2500])).
  reflexivity.
Defined.

Lemma computeMetrics_sin_days_witness :
  computeMetrics no_parse listing_sin_days (vivienda [2500])
    = Err (KeyError "days_rented").
Proof.
  apply (computeMetrics_sin_days no_parse listing_sin_days (vivienda [2500])
           (NumCol [50]) [50]); reflexivity.
Defined.

Lemma computeMetrics_price_unparsable_witness :
  computeMetrics no_parse listing_price_texto (vivienda [2500]) = Err ValueError.
Proof.
  apply (computeMetrics_price_unparsable no_parse listing_price_texto
           (vivienda [2500]) [Some "50 €"] "50 €"); try reflexivity.
  by left.
Defined.

Lemma computeMetrics_select_rows_witness :
  computeMetrics no_parse
    (select_rows [true; false; false; true; false] listings_demo)
    (vivienda [2500]) =
    match computeMetrics no_parse listings_demo (vivienda [2500]) with
    | Ok df' => Ok (select_rows [true; false; false; true; false] df')
    | Err e => Err e
    end.
Proof.
  apply (computeMetrics_select_rows no_parse [true; false; false; true; false]
           listings_demo (vivienda [2500]) [50; 80; 120; 40; 60]
           [100; 200; 150; 90; 30]); reflexivity.
Defined.

Lemma filter_only_drops_rows_witness :
  (∃ mask, listings_demo_valencia = select_rows mask listings_demo) ∧
  index listings_demo_valencia `sublist_of` index listings_demo ∧
  (len listings_demo_valencia ≤ len listings_demo)%nat ∧
  dom (cols listings_demo_valencia) = dom (cols listings_demo) ∧
  (wf listings_demo → wf listings_demo_valencia).
Proof.
  apply (filter_only_drops_rows (User Valencia None) listings_demo).
  vm_compute. reflexivity.
Defined.

Lemma default_selection_keeps_present_witness :
  ∃ dc nb,
    (if has_column "city" listings_demo
     then narrow_city "Valencia" listings_demo = Ok dc
     else dc = listings_demo) ∧
    cols dc !! "neighbourhood" = Some nb ∧
    listings_demo_valencia
      = select_rows (map (λ v, negb (isna v)) (cells nb)) dc.
Proof.
  apply (default_selection_keeps_present (User Valencia None) listings_demo).
  - reflexivity.
  - vm_compute. reflexivity.
Defined.

Lemma filter_sin_neighbourhood_witness :
  filter_listings (User Valencia None) listings_sin_barrio
    = Script widgets_city (Raised (KeyError "neighbourhood")).
Proof.
  apply (proj1 (proj2 (filter_sin_neighbourhood (User Valencia None)
                         listings_sin_barrio eq_refl))
           (select_rows [true; false] listings_sin_barrio));
    vm_compute; reflexivity.
Defined.

Lemma filter_city_numeric_witness :
  filter_listings (User Madrid None) listings_city_num
    = Script widgets_city (Raised AttributeError).
Proof.
  apply (filter_city_numeric (User Madrid None) listings_city_num [46; 28]).
  reflexivity.
Defined.

Lemma app_reaches_views_witness :
  empty views_demo = false ∧
  (∀ k, k ∈ "price" :: derived_columns →
     ∃ xs, cols views_demo !! k = Some (NumCol xs)) ∧
  is_Some (cols views_demo !! "days_rented") ∧
  is_Some (cols views_demo !! "neighbourhood") ∧
  (∀ raw, storage_demo "data/Valencia_limpio.csv" "," = Returns raw →
     wf raw → wf views_demo).
Proof.
  apply (app_reaches_views no_parse storage_demo (User Valencia None)).
  vm_compute. reflexivity.
Defined.

Lemma es_valencia_after_filter_witness :
  es_valencia listings_demo_valencia = Value (bool_decide (Valencia = Valencia)).
Proof.
  apply (es_valencia_after_filter (User Valencia None) listings_demo).
  - exact wf_listings_demo.
  - reflexivity.
  - vm_compute. reflexivity.
Defined.

Lemma activos_rows_witness :
  ∃ act ds',
    activos listings_demo = Ok (Some act) ∧
    cols act !! "days_rented" = Some (NumCol ds') ∧
    zip (index act) ds'
      = List.filter (λ iv, 30 <? iv.2)
          (zip (index listings_demo) [100; 200; 150; 90; 30]) ∧
    Forall (λ x, (30 <? x) = true ∧ PrimFloat.is_nan x = false) ds'.
Proof.
  apply (activos_rows listings_demo [100; 200; 150; 90; 30]). reflexivity.
Defined.

Lemma delincuencia_sin_total_witness :
  ∃ d' xs',
    df_delincuencia_filtrado crimen_demo = Ok d' ∧
    cols d' !! "Parámetro" = Some (ObjCol xs') ∧
    (Some "Total" ∉ xs') ∧
    zip (index d') xs'
      = List.filter (λ iv, negb (bool_decide (iv.2 = Some "Total")))
          (zip (index crimen_demo)
             [Some "Hurtos"; Some "Total"; None; Some "Robos"]) ∧
    (wf crimen_demo → df_delincuencia_filtrado d' = Ok d').
Proof.
  apply (delincuencia_sin_total crimen_demo
           [Some "Hurtos"; Some "Total"; None; Some "Robos"]).
  reflexivity.
Defined.

Lemma df_top_all_witness :
  df_top by_count_stable listings_demo_valencia = Ok listings_demo_valencia.
Proof.
  apply (df_top_all by_count_stable listings_demo_valencia
           (ObjCol [Some "Russafa"; Some "Benimaclet"])).
  - intros l. apply sorted_by_perm.
  - wf_sample.
  - reflexivity.
  - repeat constructor.
  - vm_compute. lia.
Defined.

Lemma competencia_total_witness :
  ∃ comp,
    competencia_por_barrio listings_ids = Ok comp ∧
    comp.*1 = barrios_of (ObjCol [Some "Russafa"; Some "Benimaclet";
                                  Some "Russafa"; Some "Russafa"]) ∧
    sum_list comp.*2
      = length (dropna_str [Some "Russafa"; Some "Benimaclet";
                            Some "Russafa"; Some "Russafa"]).
Proof.
  apply (competencia_total listings_ids
           [Some "Russafa"; Some "Benimaclet"; Some "Russafa"; Some "Russafa"]
           (NumCol [11; 12; 13; 14])).
  - wf_sample.
  - reflexivity.
  - reflexivity.
  - repeat constructor.
Defined.

Lemma offered_pick_passes_witness :
  ∃ df', ending (filter_listings (User Valencia (Some [LStr "Russafa"]))
                   listings_demo) = Done df'.
Proof.
  apply (offered_pick_passes (User Valencia (Some [LStr "Russafa"]))
           listings_demo [LStr "Benimaclet"; LStr "Russafa"] (LStr "Russafa")).
  - exact wf_listings_demo.
  - vm_compute. set_solver.
  - set_solver.
  - simpl. set_solver.
Defined.
